(** * Bingo spatial prefetcher (src/prefetcher/pref_bingo.c)

    A shallow embedding of the Bingo prefetcher of Scarab and the
    properties of its footprint tracker, history buckets, commit path,
    lookup path and prefetch emitter. *)

From Stdlib Require Import ssreflect ZArith List Lia Permutation.
From stdpp Require Import base numbers list gmap.

#[local] Set Warnings "-rewrite-rw".

Local Open Scope Z_scope.

(** ** Machine integers

    [Addr] is an unsigned 64-bit integer: additions and left shifts wrap
    around modulo 2^64.  [uns] is an unsigned 32-bit integer. *)

Definition wrap64 (z : Z) : Z := z mod 2 ^ 64.
Definition wrap32 (z : Z) : Z := z mod 2 ^ 32.

Definition addr_add (a b : Z) : Z := wrap64 (a + b).
Definition addr_shl (a n : Z) : Z := wrap64 (Z.shiftl a n).

(** ** Address decomposition (4KB pages, 64-byte blocks) *)

Definition bingo_get_page_number (addr : Z) : Z := Z.shiftr addr 12.

Definition bingo_get_page_base_from_number (page_num : Z) : Z :=
  addr_shl page_num 12.

Definition bingo_get_block_index (addr : Z) : nat :=
  let page_offset := Z.land addr (4096 - 1) in
  Z.to_nat (Z.shiftr page_offset 6).

(** ** Data model

    The structures are declared in pref_bingo.h; the fields are the ones
    pref_bingo.c reads and writes, the array sizes the bounds it uses (64
    footprint flags, 16 slots per line).  The [int] fields of a table line
    only ever hold slot numbers and sizes in 0..16, they are natural
    numbers here; the sentinel -1 of [found_index] is [None]. *)

Record Footprint := mkFootprint { accessed : list bool }.

Record Aux_Entry := mkAux {
  trigger_addr : Z;
  pc : Z;
  footprint : Footprint
}.

Record Bingo_History_Table := mkHist {
  pc_plus_address : Z;
  pc_plus_offset : Z;
  entry : Aux_Entry
}.

Record Bingo_Table_Line := mkLine {
  line : list Bingo_History_Table;
  usage_order : list nat;
  current_size : nat
}.

(** What [memset(&x, 0, sizeof(x))] leaves in each structure. *)
Definition zero_aux : Aux_Entry := mkAux 0 0 (mkFootprint (replicate 64 false)).
Definition zero_hist : Bingo_History_Table := mkHist 0 0 zero_aux.
Definition zero_line : Bingo_Table_Line :=
  mkLine (replicate 16 zero_hist) (replicate 16 0%nat) 0.

#[global] Instance Aux_Entry_inhabited : Inhabited Aux_Entry := populate zero_aux.
#[global] Instance Bingo_History_Table_inhabited : Inhabited Bingo_History_Table :=
  populate zero_hist.

(** [footprint.accessed[i]], read as a flag *)
Definition flag (fp : Footprint) (i : nat) : bool :=
  default false (accessed fp !! i).

(** [aux_entry->footprint.accessed[block_index] = TRUE] *)
Definition set_accessed (e : Aux_Entry) (block_index : nat) : Aux_Entry :=
  mkAux (trigger_addr e) (pc e)
        (mkFootprint (<[block_index := true]> (accessed (footprint e)))).

(** ** The associative store (libs/hash_lib) *)

Module Hash.
Section Table.
Context {V : Type}.

(** Modelled from the spec: libs/hash_lib.c is not among the sources.
    The store is an associative map with 64-bit keys offering
    lookup-by-key (existing entry or none), upsert-by-key (insert or
    overwrite, the data copied into the store), delete-by-key and a count
    of live entries. *)
Definition hash_table_access (table : gmap Z V) (key : Z) : option V :=
  table !! key.

Definition hash_table_access_replace (table : gmap Z V) (key : Z) (v : V)
  : gmap Z V := <[key := v]> table.

Definition hash_table_access_delete (table : gmap Z V) (key : Z)
  : gmap Z V := delete key table.

Definition count (table : gmap Z V) : nat := size table.
End Table.
End Hash.
Import Hash.

(** The two process-wide tables. *)
Record Bingo_State := mkState {
  History_Table : gmap Z Bingo_Table_Line;
  Aux_Storage : gmap Z Aux_Entry
}.

(** [pref_bingo_init]: both tables start empty. *)
Definition pref_bingo_init : Bingo_State := mkState ∅ ∅.

(** ** Loops

    [for(i = 0; i < n; i++) if(cond(i)) { ...; break or return; }]:
    the first counter value that satisfies the test, if any. *)
Fixpoint for_first (cond : nat → bool) (i n : nat) : option nat :=
  match n with
  | O => None
  | S n' => if cond i then Some i else for_first cond (S i) n'
  end.

(** [for(j = i; j > 0; j--) usage_order[j] = usage_order[j - 1];] *)
Fixpoint shift_right (i : nat) (uo : list nat) : list nat :=
  match i with
  | O => uo
  | S j => shift_right j (<[S j := uo !!! j]> uo)
  end.

(** ** History-table search helpers

    Both read the global [History_Table.count]; it is the argument
    [table_count].  The result is the slot the returned pointer
    [&table_line->line[index]] designates. *)

Definition scan_usage_order (table_line : Bingo_Table_Line)
    (test : Bingo_History_Table → bool) : option nat :=
  match for_first
          (λ i, test (line table_line !!! (usage_order table_line !!! i)))
          0 (current_size table_line) with
  | Some i => Some (usage_order table_line !!! i)
  | None => None
  end.

Definition pref_bingo_find_event_to_fetch (table_count : nat)
    (table_line : Bingo_Table_Line) (pc_plus_offset' : Z) : option nat :=
  if (table_count =? 0)%nat then None
  else scan_usage_order table_line
         (λ r, pc_plus_offset r =? pc_plus_offset').

Definition pref_bingo_find_event_to_fetch_addr (table_count : nat)
    (table_line : Bingo_Table_Line) (pc_plus_address' : Z) : option nat :=
  if (table_count =? 0)%nat then None
  else scan_usage_order table_line
         (λ r, pc_plus_address r =? pc_plus_address').

(** ** Bounded-LRU line *)

Definition add_entry (table_line : Bingo_Table_Line)
    (new_entry : Bingo_History_Table) : Bingo_Table_Line :=
  let used := current_size table_line in
  let '(index_to_replace, size', used') :=
    if (used <? 16)%nat
    then (used, S used, S used)
    else (usage_order table_line !!! 15%nat, used, 16%nat) in
  mkLine (<[index_to_replace := new_entry]> (line table_line))
         (<[0%nat := index_to_replace]>
            (shift_right (used' - 1) (usage_order table_line)))
         size'.

Definition mark_used_by_address (table_line : Bingo_Table_Line)
    (pc_plus_address' : Z) : Bingo_Table_Line :=
  match for_first
          (λ i, pc_plus_address (line table_line !!! i) =? pc_plus_address')
          0 (current_size table_line) with
  | None => table_line
  | Some found_index =>
      match for_first
              (λ i, (usage_order table_line !!! i =? found_index)%nat)
              0 (current_size table_line) with
      | Some i =>
          mkLine (line table_line)
                 (<[0%nat := found_index]>
                    (shift_right i (usage_order table_line)))
                 (current_size table_line)
      | None => table_line
      end
  end.

(** ** Footprint tracker

    The block that appears in [pref_bingo_ul1_hit] and twice in
    [pref_bingo_ul1_miss]: set the bit of a live entry in place, or store
    a fresh entry with only that bit. *)
Definition update_aux (aux : gmap Z Aux_Entry)
    (page_number : Z) (block_index : nat) (lineAddr loadPC : Z)
    : gmap Z Aux_Entry :=
  match hash_table_access aux page_number with
  | Some aux_entry =>
      <[page_number := set_accessed aux_entry block_index]> aux
  | None =>
      let new_entry :=
        set_accessed (mkAux lineAddr loadPC (footprint zero_aux)) block_index in
      hash_table_access_replace aux page_number new_entry
  end.

Definition pref_bingo_ul1_hit (st : Bingo_State)
    (proc_id lineAddr loadPC global_hist : Z) : Bingo_State :=
  let page_number := bingo_get_page_number lineAddr in
  let block_index := bingo_get_block_index lineAddr in
  mkState (History_Table st)
          (update_aux (Aux_Storage st) page_number block_index lineAddr loadPC).

(** ** Commit path *)

Definition pref_bingo_ul1_cache_evict (st : Bingo_State)
    (proc_id lineAddr : Z) : Bingo_State :=
  let page_number := bingo_get_page_number lineAddr in
  match hash_table_access (Aux_Storage st) page_number with
  | None => st
  | Some aux_entry =>
      let block_address := Z.shiftr lineAddr 6 in
      let pc_plus_offset' := addr_add (pc aux_entry) block_address in
      let pc_plus_address' := addr_add (pc aux_entry) lineAddr in
      let hist_entry := mkHist pc_plus_address' pc_plus_offset' aux_entry in
      let table_line :=
        match hash_table_access (History_Table st) pc_plus_offset' with
        | Some l => l
        | None => zero_line
        end in
      mkState
        (hash_table_access_replace (History_Table st) pc_plus_offset'
           (add_entry table_line hist_entry))
        (hash_table_access_delete (Aux_Storage st) page_number)
  end.

(** ** Prefetch emitter and lookup path *)

(** One call of [pref_addto_ul1req_queue(proc_id, line_index, id)]. *)
Record Request := mkReq {
  req_proc_id : Z;
  req_line_index : Z;
  req_hwp_id : Z
}.

Section Prefetcher.
(** [LOG2(DCACHE_LINE_SIZE)] and [hwp_in.id]: a simulator parameter and
    the identity handed over at initialisation. *)
Variable LOG2_DCACHE_LINE_SIZE : Z.
Variable hwp_in_id : Z.

Definition prefetch_request (proc_id page_base : Z) (i : nat) : Request :=
  let line_addr := addr_add page_base (addr_shl (Z.of_nat i) 6) in
  let line_index := wrap32 (Z.shiftr line_addr LOG2_DCACHE_LINE_SIZE) in
  mkReq proc_id line_index hwp_in_id.

(** The body of [for(int i = 0; i < 64; i++)], [n] iterations left. *)
Fixpoint prefetch_loop (History_Entry : Bingo_History_Table)
    (proc_id page_base : Z) (i n : nat) : list Request :=
  match n with
  | O => []
  | S n' =>
      (if flag (footprint (entry History_Entry)) i
       then [prefetch_request proc_id page_base i] else [])
      ++ prefetch_loop History_Entry proc_id page_base (S i) n'
  end.

Definition pref_bingo_prefetch (History_Entry : Bingo_History_Table)
    (proc_id page_address : Z) : list Request :=
  let page_base := bingo_get_page_base_from_number page_address in
  prefetch_loop History_Entry proc_id page_base 0 64.

(** The record the miss handler uses as prediction source: exact
    [pc_plus_address] match first, signature match as fall-back. *)
Definition select_entry (table_count : nat) (table_line : Bingo_Table_Line)
    (pc_plus_address' pc_plus_offset' : Z) : option nat :=
  match pref_bingo_find_event_to_fetch_addr table_count table_line
          pc_plus_address' with
  | Some s => Some s
  | None =>
      pref_bingo_find_event_to_fetch table_count table_line pc_plus_offset'
  end.

Definition pref_bingo_ul1_miss (st : Bingo_State)
    (proc_id lineAddr loadPC global_hist : Z)
    : Bingo_State * list Request :=
  let block_address := addr_shl (Z.shiftr lineAddr 6) 6 in
  let pc_plus_offset' := addr_add loadPC block_address in
  let pc_plus_address' := addr_add loadPC lineAddr in
  let page_number := bingo_get_page_number lineAddr in
  let block_index := bingo_get_block_index lineAddr in
  let learn :=
    mkState (History_Table st)
            (update_aux (Aux_Storage st) page_number block_index
                        lineAddr loadPC) in
  match hash_table_access (History_Table st) pc_plus_offset' with
  | None => (learn, [])
  | Some table_line =>
      match select_entry (count (History_Table st)) table_line
              pc_plus_address' pc_plus_offset' with
      | Some s =>
          (mkState
             (<[pc_plus_offset' :=
                  mark_used_by_address table_line pc_plus_address']>
                (History_Table st))
             (Aux_Storage st),
           pref_bingo_prefetch (line table_line !!! s) proc_id page_number)
      | None => (learn, [])
      end
  end.

(** ** Callback traces

    The host calls the three callbacks one at a time. *)
Inductive Event :=
| Hit (proc_id lineAddr loadPC global_hist : Z)
| Miss (proc_id lineAddr loadPC global_hist : Z)
| Evict (proc_id lineAddr : Z).

Definition step (st : Bingo_State) (ev : Event)
    : Bingo_State * list Request :=
  match ev with
  | Hit p a c g => (pref_bingo_ul1_hit st p a c g, [])
  | Miss p a c g => pref_bingo_ul1_miss st p a c g
  | Evict p a => (pref_bingo_ul1_cache_evict st p a, [])
  end.

Fixpoint run (evs : list Event) (st : Bingo_State) : Bingo_State :=
  match evs with
  | [] => st
  | ev :: evs' => run evs' (step st ev).1
  end.
End Prefetcher.

Local Close Scope Z_scope.

(** * Invariants, traces and example data *)

(** ** Well-formed lines *)

(** The slots and the recency array have their 16 cells, at most 16
    slots are occupied, and the first [current_size] recency cells are a
    permutation of the occupied slot numbers. *)
Definition wf_line (l : Bingo_Table_Line) : Prop :=
  length (line l) = 16 ∧ length (usage_order l) = 16 ∧
  current_size l ≤ 16 ∧
  take (current_size l) (usage_order l) ≡ₚ seq 0 (current_size l).

(** ** Sequences of line operations *)

Inductive bucket_op :=
| Add (new_entry : Bingo_History_Table)
| Mark (pc_plus_address' : Z).

Definition apply_op (l : Bingo_Table_Line) (op : bucket_op)
    : Bingo_Table_Line :=
  match op with
  | Add e => add_entry l e
  | Mark a => mark_used_by_address l a
  end.

Definition apply_ops (ops : list bucket_op) (l : Bingo_Table_Line)
    : Bingo_Table_Line := foldl apply_op l ops.

(** No occupied record of the line carries the exact key [a]. *)
Definition exact_key_absent (l : Bingo_Table_Line) (a : Z) : Prop :=
  Forall (λ r, pc_plus_address r ≠ a) (take (current_size l) (line l)).

(** A full line whose two oldest records are equal, and one more record. *)
Definition rec_of (a o : Z) : Bingo_History_Table := mkHist a o zero_aux.

Definition twin_ops : list bucket_op :=
  Add (rec_of 1 0) :: Add (rec_of 1 0)
  :: map (λ k, Add (rec_of (Z.of_nat k) 0)) (seq 3 14).

Definition distinct_ops : list bucket_op :=
  map (λ k, Add (rec_of (Z.of_nat k) (Z.of_nat k))) (seq 1 16).

(** ** State invariants *)

(** Every history line is a well-formed bounded-LRU line. *)
Definition hist_wf (st : Bingo_State) : Prop :=
  ∀ k l, History_Table st !! k = Some l → wf_line l.

(** The searches with the emptiness guard removed. *)
Definition find_event_to_fetch_unguarded (table_line : Bingo_Table_Line)
    (pc_plus_offset' : Z) : option nat :=
  scan_usage_order table_line (λ r, (pc_plus_offset r =? pc_plus_offset')%Z).

Definition find_event_to_fetch_addr_unguarded (table_line : Bingo_Table_Line)
    (pc_plus_address' : Z) : option nat :=
  scan_usage_order table_line (λ r, (pc_plus_address r =? pc_plus_address')%Z).

(** The two keys the miss handler derives from an access. *)
Definition miss_signature (lineAddr loadPC : Z) : Z :=
  addr_add loadPC (addr_shl (Z.shiftr lineAddr 6) 6).
Definition miss_exact (lineAddr loadPC : Z) : Z := addr_add loadPC lineAddr.

(** The page an event is about, whether it is a hit or miss to page
    [P], and whether it evicts a line of [P]. *)
Definition event_page (ev : Event) : Z :=
  match ev with
  | Hit _ a _ _ | Miss _ a _ _ | Evict _ a => bingo_get_page_number a
  end.

Definition accesses (P : Z) (ev : Event) : bool :=
  match ev with
  | Hit _ a _ _ | Miss _ a _ _ => (bingo_get_page_number a =? P)%Z
  | Evict _ _ => false
  end.

Definition evicts (P : Z) (ev : Event) : bool :=
  match ev with
  | Evict _ a => (bingo_get_page_number a =? P)%Z
  | _ => false
  end.

Definition event_addr (ev : Event) : Z :=
  match ev with Hit _ a _ _ | Miss _ a _ _ | Evict _ a => a end.

Definition event_pc (ev : Event) : Z :=
  match ev with Hit _ _ c _ | Miss _ _ c _ => c | Evict _ _ => 0%Z end.

(** The block the footprint tracker records for page [P] when [ev] is
    handled in state [st]: the block of a hit to [P], or of a miss to [P]
    on which no record is selected. *)
Definition recorded (st : Bingo_State) (P : Z) (ev : Event) : option nat :=
  match ev with
  | Hit _ a _ _ =>
      if (bingo_get_page_number a =? P)%Z
      then Some (bingo_get_block_index a) else None
  | Miss _ a c _ =>
      if (bingo_get_page_number a =? P)%Z
      then match History_Table st !! miss_signature a c with
           | Some l =>
               match select_entry (count (History_Table st)) l
                       (miss_exact a c) (miss_signature a c) with
               | Some _ => None
               | None => Some (bingo_get_block_index a)
               end
           | None => Some (bingo_get_block_index a)
           end
      else None
  | Evict _ _ => None
  end.

Fixpoint recorded_blocks (LOG2_DCACHE_LINE_SIZE hwp_in_id : Z) (P : Z)
    (evs : list Event) (st : Bingo_State) : list nat :=
  match evs with
  | [] => []
  | ev :: evs' =>
      match recorded st P ev with
      | Some b => b :: recorded_blocks LOG2_DCACHE_LINE_SIZE hwp_in_id P evs'
                         (step LOG2_DCACHE_LINE_SIZE hwp_in_id st ev).1
      | None => recorded_blocks LOG2_DCACHE_LINE_SIZE hwp_in_id P evs'
                  (step LOG2_DCACHE_LINE_SIZE hwp_in_id st ev).1
      end
  end.

(** The blocks of all hits and misses to page [P] in a trace. *)
Definition observed_blocks (P : Z) (evs : list Event) : list nat :=
  omap (λ ev, if accesses P ev
              then Some (bingo_get_block_index (event_addr ev)) else None)
       evs.

(** No two occupied slots of a line carry the same [pc_plus_address]. *)
Definition nodup_line (l : Bingo_Table_Line) : Prop :=
  NoDup (pc_plus_address <$> take (current_size l) (line l)).

Definition no_duplicate_exact_keys (st : Bingo_State) : Prop :=
  ∀ k l, History_Table st !! k = Some l → nodup_line l.

(** An eviction handled in [st] commits nothing, or a record whose
    [pc_plus_address] no occupied slot of its history line carries. *)
Definition fresh_commit (st : Bingo_State) (ev : Event) : bool :=
  match ev with
  | Evict _ a =>
      match Aux_Storage st !! bingo_get_page_number a with
      | None => true
      | Some e =>
          match History_Table st !! addr_add (pc e) (Z.shiftr a 6) with
          | None => true
          | Some l =>
              forallb (λ r, negb (pc_plus_address r =? addr_add (pc e) a)%Z)
                      (take (current_size l) (line l))
          end
      end
  | _ => true
  end.

Fixpoint all_fresh (LOG2_DCACHE_LINE_SIZE hwp_in_id : Z)
    (evs : list Event) (st : Bingo_State) : bool :=
  match evs with
  | [] => true
  | ev :: evs' =>
      fresh_commit st ev
      && all_fresh LOG2_DCACHE_LINE_SIZE hwp_in_id evs'
           (step LOG2_DCACHE_LINE_SIZE hwp_in_id st ev).1
  end.

(** The traces below use 64-byte lines for the request queue
    ([LOG2(DCACHE_LINE_SIZE) = 6]) and prefetcher id 0. *)
Definition run0 : list Event → Bingo_State := λ evs, run 6 0 evs pref_bingo_init.
Definition miss0 := pref_bingo_ul1_miss 6 0.
Definition line_at (st : Bingo_State) (key : Z) : Bingo_Table_Line :=
  default zero_line (History_Table st !! key).
Definition aux_set_bits (e : Aux_Entry) : list nat :=
  List.filter (flag (footprint e)) (seq 0 64).
Definition set_bits (r : Bingo_History_Table) : list nat :=
  aux_set_bits (entry r).

(** Two commits under signature 5: first pc 5 with line 0, then pc 4
    with line 64. *)
Definition mixed_trace : list Event :=
  [Hit 0 0 5 0; Evict 0 0; Hit 0 64 4 0; Evict 0 64].

(** The same line committed twice from the same instruction, with
    different footprints. *)
Definition twice_trace : list Event :=
  [Hit 0 0 5 0; Evict 0 0; Hit 0 64 5 0; Evict 0 0].

(** Seventeen commits under signature 100: instruction [100 - i] touches
    line [i] of page 0 (address [64 * i]), and that line is evicted.  The
    record the commit path builds for it carries [pc_plus_address]
    [100 + 63 * i], all of them distinct. *)
Definition commit_record (i : nat) : Bingo_History_Table :=
  mkHist (100 + 63 * Z.of_nat i) 100
         (set_accessed
            (mkAux (64 * Z.of_nat i) (100 - Z.of_nat i) (footprint zero_aux))
            i).

Definition commit_ops (n : nat) : list bucket_op :=
  (λ i, Add (commit_record i)) <$> seq 0 n.

Definition commit_trace (n : nat) : list Event :=
  flat_map (λ i, [Hit 0 (64 * Z.of_nat i) (100 - Z.of_nat i) 0;
                  Evict 0 (64 * Z.of_nat i)])
           (seq 0 n).

(** ** Records as the callbacks build them *)

(** A live record stored for page [P]: its trigger address lies in [P],
    it has its 64 flags, and the flag of the trigger block is set. *)
Definition aux_ok (P : Z) (e : Aux_Entry) : Prop :=
  bingo_get_page_number (trigger_addr e) = P ∧
  length (accessed (footprint e)) = 64 ∧
  flag (footprint e) (bingo_get_block_index (trigger_addr e)) = true.

(** A record committed under signature [k]: both keys are built from the
    trigger pc and one evicted line address [X] of the trigger's page. *)
Definition record_ok (k : Z) (r : Bingo_History_Table) : Prop :=
  pc_plus_offset r = k ∧
  (∃ X, pc_plus_address r = addr_add (pc (entry r)) X ∧
        k = addr_add (pc (entry r)) (Z.shiftr X 6) ∧
        bingo_get_page_number X
          = bingo_get_page_number (trigger_addr (entry r))) ∧
  aux_ok (bingo_get_page_number (trigger_addr (entry r))) (entry r).

Definition state_ok (st : Bingo_State) : Prop :=
  hist_wf st ∧
  (∀ P e, Aux_Storage st !! P = Some e → aux_ok P e) ∧
  (∀ k l, History_Table st !! k = Some l →
          1 ≤ current_size l ∧
          ∀ j, j < current_size l → record_ok k (line l !!! j)).

(** The number of insertions in a sequence of line operations. *)
Definition count_adds (ops : list bucket_op) : nat :=
  length (List.filter (λ op, match op with Add _ => true | Mark _ => false end)
                      ops).

(** * Properties *)

(** ** The loops *)

Lemma for_first_Some cond i n j :
  for_first cond i n = Some j →
  i ≤ j < i + n ∧ cond j = true ∧ ∀ k, i ≤ k < j → cond k = false.
Proof.
  revert i. induction n as [|n IH]; intros i; simpl; [done|].
  destruct (cond i) eqn:Hc.
  - intros [= <-]. repeat split; [lia..|done|]. intros k ?; lia.
  - intros Hj. destruct (IH _ Hj) as (Hr & Hcj & Hlt).
    repeat split; [lia..|done|]. intros k Hk.
    destruct (decide (k = i)) as [->|]; [done|]. apply Hlt. lia.
Qed.

Lemma for_first_None cond i n :
  for_first cond i n = None → ∀ k, i ≤ k < i + n → cond k = false.
Proof.
  revert i. induction n as [|n IH]; intros i; simpl; [intros _ k; lia|].
  destruct (cond i) eqn:Hc; [done|]. intros Hn k Hk.
  destruct (decide (k = i)) as [->|]; [done|]. apply (IH _ Hn). lia.
Qed.

Lemma shift_right_spec i uo :
  i < length uo →
  shift_right i uo = take 1 uo ++ take i uo ++ drop (S i) uo.
Proof.
  revert uo. induction i as [|i IH]; intros uo Hi; cbn [shift_right].
  - by rewrite (take_drop 1 uo).
  - assert (uo !! i = Some (uo !!! i)) as Hv
      by (apply list_lookup_lookup_total_lt; lia).
    destruct (lookup_lt_is_Some_2 uo (S i) Hi) as [y Hy].
    rewrite IH; [rewrite length_insert; lia|].
    rewrite !take_insert_ge; [lia..|].
    rewrite drop_insert_ge; [lia|]. rewrite Nat.sub_diag.
    rewrite (drop_S uo y (S i) Hy). simpl.
    rewrite (take_S_r uo i _ Hv). by rewrite -!app_assoc.
Qed.

(** Shifting [usage_order[0..i-1]] right by one and writing [x] at the
    front. *)
Lemma shift_right_front x i uo :
  i < length uo →
  <[0 := x]> (shift_right i uo) = x :: take i uo ++ drop (S i) uo.
Proof.
  intros Hi. rewrite shift_right_spec; [done|].
  destruct uo as [|y uo]; [simpl in Hi; lia|]. done.
Qed.

(** Moving the cell at position [i] to the front permutes every prefix
    that contains it. *)
Lemma take_move_front {A} (l : list A) i n x :
  l !! i = Some x → i < n →
  take n (x :: take i l ++ drop (S i) l) ≡ₚ take n l.
Proof.
  intros Hx Hn. rewrite -{3}(take_drop_middle _ _ _ Hx).
  assert (length (take i l) = i) as Hlen.
  { apply lookup_lt_Some in Hx. rewrite length_take. lia. }
  destruct n as [|n]; [lia|]. cbn [take].
  rewrite !take_app_ge; [lia..|]. rewrite Hlen.
  replace (S n - i) with (S (n - i)) by lia. cbn [take].
  apply Permutation_middle.
Qed.

(** ** The bounded-LRU line *)

Lemma wf_zero_line : wf_line zero_line.
Proof. repeat split; [cbn; lia|reflexivity]. Qed.

Lemma add_entry_free l e :
  current_size l < 16 → length (usage_order l) = 16 →
  add_entry l e =
    mkLine (<[current_size l := e]> (line l))
           (current_size l
              :: take (current_size l) (usage_order l)
              ++ drop (S (current_size l)) (usage_order l))
           (S (current_size l)).
Proof.
  intros Hlt Hlen. unfold add_entry.
  destruct (Nat.ltb_spec (current_size l) 16) as [_|?]; [|lia].
  f_equal. replace (S (current_size l) - 1) with (current_size l) by lia.
  apply shift_right_front. lia.
Qed.

Lemma add_entry_full l e :
  ¬ current_size l < 16 → length (usage_order l) = 16 →
  add_entry l e =
    mkLine (<[usage_order l !!! 15 := e]> (line l))
           (usage_order l !!! 15 :: take 15 (usage_order l))
           (current_size l).
Proof.
  intros Hge Hlen. unfold add_entry.
  destruct (Nat.ltb_spec (current_size l) 16) as [?|_]; [lia|].
  f_equal. change (16 - 1) with 15.
  rewrite shift_right_front; [lia|].
  by rewrite (drop_ge _ 16) ?app_nil_r; [lia|].
Qed.

Lemma wf_add_entry l e : wf_line l → wf_line (add_entry l e).
Proof.
  intros (Hl & Hu & Hs & Hp).
  destruct (decide (current_size l < 16)) as [Hlt|Hge].
  - rewrite add_entry_free //. repeat split; cbn [line usage_order current_size].
    + by rewrite length_insert.
    + cbn [length]. rewrite length_app length_take length_drop. lia.
    + lia.
    + cbn [take]. rewrite take_app_length'; [rewrite length_take; lia|].
      rewrite seq_S. cbn [Nat.add]. rewrite Hp.
      apply Permutation_cons_append.
  - rewrite add_entry_full //.
    assert (current_size l = 16) as Hc by lia. rewrite Hc in Hp |- *.
    assert (usage_order l !! 15 = Some (usage_order l !!! 15)) as Hv
      by (apply list_lookup_lookup_total_lt; lia).
    repeat split; cbn [line usage_order current_size].
    + by rewrite length_insert.
    + cbn [length]. rewrite length_take. lia.
    + lia.
    + cbn [take]. rewrite take_take. change (15 `min` 15) with 15.
      rewrite -Hp (take_S_r _ 15 _ Hv).
      apply Permutation_cons_append.
Qed.

(** What [mark_used_by_address] does when it promotes: slot [f], found
    at recency position [i], moves to the front. *)
Lemma mark_used_by_address_cases l a :
  length (usage_order l) = 16 → current_size l ≤ 16 →
  mark_used_by_address l a = l ∨
  ∃ f i,
    for_first (λ i, (pc_plus_address (line l !!! i) =? a)%Z)
              0 (current_size l) = Some f ∧
    i < current_size l ∧ usage_order l !! i = Some f ∧
    mark_used_by_address l a =
      mkLine (line l)
             (f :: take i (usage_order l) ++ drop (S i) (usage_order l))
             (current_size l).
Proof.
  intros Hu Hs. unfold mark_used_by_address.
  destruct (for_first _ 0 (current_size l)) as [f|] eqn:Hf; [|by left].
  destruct (for_first (λ i, usage_order l !!! i =? f) 0 (current_size l))
    as [i|] eqn:Hi; [|by left].
  right. exists f, i. apply for_first_Some in Hi as (Hr & Hc & _).
  apply Nat.eqb_eq in Hc.
  repeat split; [lia| |].
  - rewrite -Hc. apply list_lookup_lookup_total_lt. lia.
  - f_equal. apply shift_right_front. lia.
Qed.

Lemma wf_mark_used_by_address l a :
  wf_line l → wf_line (mark_used_by_address l a).
Proof.
  intros Hwf. pose proof Hwf as (Hl & Hu & Hs & Hp).
  destruct (mark_used_by_address_cases l a Hu Hs)
    as [->|(f & i & _ & Hi & Hf & ->)]; [done|].
  repeat split; cbn [line usage_order current_size]; [done| |done|].
  - cbn [length]. rewrite length_app length_take length_drop. lia.
  - rewrite -Hp. by apply take_move_front.
Qed.

(** The recency cells of the occupied range name occupied slots, and
    every occupied slot is named by one of them. *)
Lemma usage_order_lt l i :
  wf_line l → i < current_size l → usage_order l !!! i < current_size l.
Proof.
  intros (_ & Hu & Hs & Hp) Hi.
  assert (take (current_size l) (usage_order l) !! i
          = Some (usage_order l !!! i)) as Hx.
  { rewrite lookup_take_lt //. apply list_lookup_lookup_total_lt. lia. }
  apply list_elem_of_lookup_2 in Hx. rewrite Hp in Hx.
  apply elem_of_seq in Hx. lia.
Qed.

Lemma usage_order_complete l j :
  wf_line l → j < current_size l →
  ∃ i, i < current_size l ∧ usage_order l !!! i = j.
Proof.
  intros (_ & Hu & Hs & Hp) Hj.
  assert (j ∈ take (current_size l) (usage_order l)) as Hin.
  { rewrite Hp. apply elem_of_seq. lia. }
  apply list_elem_of_lookup_1 in Hin as [i Hi].
  apply lookup_take_Some in Hi as [Hi Hlt].
  exists i. split; [done|]. by apply list_lookup_total_correct.
Qed.

Lemma scan_usage_order_Some l test s :
  wf_line l → scan_usage_order l test = Some s →
  s < current_size l ∧ test (line l !!! s) = true ∧
  ∃ i, i < current_size l ∧ usage_order l !!! i = s ∧
       ∀ k, k < i → test (line l !!! (usage_order l !!! k)) = false.
Proof.
  intros Hwf. unfold scan_usage_order.
  destruct (for_first _ 0 (current_size l)) as [i|] eqn:Hf; [|done].
  intros [= <-]. apply for_first_Some in Hf as (Hr & Hc & Hlt).
  split; [apply usage_order_lt; [done|lia]|]. split; [done|].
  exists i. repeat split; [lia|]. intros k Hk. apply Hlt. lia.
Qed.

Lemma scan_usage_order_None l test :
  wf_line l →
  scan_usage_order l test = None ↔
  ∀ j, j < current_size l → test (line l !!! j) = false.
Proof.
  intros Hwf. unfold scan_usage_order. split.
  - destruct (for_first _ 0 (current_size l)) as [i|] eqn:Hf; [done|].
    intros _ j Hj.
    destruct (usage_order_complete l j Hwf Hj) as (i & Hi & <-).
    apply (for_first_None _ _ _ Hf i). lia.
  - intros Hall.
    destruct (for_first _ 0 (current_size l)) as [i|] eqn:Hf; [|done].
    apply for_first_Some in Hf as (Hr & Hc & _).
    rewrite Hall in Hc; [|done]. apply usage_order_lt; [done|lia].
Qed.

Lemma wf_apply_ops ops l : wf_line l → wf_line (apply_ops ops l).
Proof.
  revert l. induction ops as [|op ops IH]; intros l Hwf; [done|].
  apply IH. destruct op; [by apply wf_add_entry|].
  by apply wf_mark_used_by_address.
Qed.

Lemma exact_key_absent_iff l a :
  wf_line l →
  exact_key_absent l a
  ↔ ∀ j, j < current_size l → pc_plus_address (line l !!! j) ≠ a.
Proof.
  intros (Hl & _ & Hs & _). unfold exact_key_absent. split.
  - intros Habs j Hj. apply (proj1 (Forall_lookup _ _) Habs j).
    rewrite lookup_take_lt //. apply list_lookup_lookup_total_lt. lia.
  - intros Hall. apply Forall_lookup. intros j r Hj.
    apply lookup_take_Some in Hj as [Hj Hlt].
    rewrite -(list_lookup_total_correct _ _ _ Hj). by apply Hall.
Qed.

Lemma exact_search_None n l a :
  wf_line l → n ≠ 0 →
  pref_bingo_find_event_to_fetch_addr n l a = None ↔ exact_key_absent l a.
Proof.
  intros Hwf Hn. rewrite exact_key_absent_iff //.
  unfold pref_bingo_find_event_to_fetch_addr.
  destruct (Nat.eqb_spec n 0); [done|].
  rewrite scan_usage_order_None //.
  split; intros Hall j Hj; specialize (Hall j Hj); cbn in *; lia.
Qed.

Lemma exact_search_absent n l a :
  wf_line l → exact_key_absent l a →
  pref_bingo_find_event_to_fetch_addr n l a = None.
Proof.
  intros Hwf Habs. destruct (decide (n = 0)) as [->|Hn]; [done|].
  by apply exact_search_None.
Qed.

(** C4 (as amended).  Every line reached from the zero-initialised one by
    [add_entry] and [mark_used_by_address] holds at most 16 records and
    its recency prefix is a permutation of the occupied slot numbers; an
    [add_entry] into a full line overwrites exactly the slot at the back of
    the recency order and makes it the front.  When no record of the line
    after the insertion carries the overwritten record's [pc_plus_address],
    the exact search for it finds nothing, and the lookup by its former key
    pair returns at most a record with another [pc_plus_address] (through
    the signature fall-back); with a non-empty table the exact search finds
    nothing only then. *)
Theorem bucket_bounded_lru (ops : list bucket_op) (e : Bingo_History_Table)
    (n : nat) :
  let l := apply_ops ops zero_line in
  current_size l ≤ 16 ∧
  take (current_size l) (usage_order l) ≡ₚ seq 0 (current_size l) ∧
  (current_size l = 16 →
   let v := usage_order l !!! 15 in
   let old := line l !!! v in
   let l' := add_entry l e in
   v < 16 ∧
   line l' = <[v := e]> (line l) ∧ line l' !!! v = e ∧
   usage_order l' = v :: take 15 (usage_order l) ∧
   current_size l' = 16 ∧
   (exact_key_absent l' (pc_plus_address old) →
    pref_bingo_find_event_to_fetch_addr n l' (pc_plus_address old) = None ∧
    ∀ s, select_entry n l' (pc_plus_address old) (pc_plus_offset old)
         = Some s →
         s < 16 ∧
         pc_plus_address (line l' !!! s) ≠ pc_plus_address old) ∧
   (n ≠ 0 →
    pref_bingo_find_event_to_fetch_addr n l' (pc_plus_address old) = None →
    exact_key_absent l' (pc_plus_address old))).
Proof.
  intros l. assert (wf_line l) as Hwf by apply wf_apply_ops, wf_zero_line.
  pose proof Hwf as (Hl & Hu & Hs & Hp).
  split; [done|]. split; [done|]. intros Hfull v old l'.
  assert (v < 16) as Hv.
  { pose proof (usage_order_lt l 15 Hwf). unfold v. lia. }
  assert (l' = mkLine (<[v := e]> (line l)) (v :: take 15 (usage_order l))
                      (current_size l)) as Hl'.
  { apply add_entry_full; [lia|done]. }
  assert (wf_line l') as Hwf' by apply wf_add_entry, Hwf.
  assert (current_size l' = 16) as Hcs' by (by rewrite Hl').
  split; [done|]. split; [by rewrite Hl'|]. split.
  { rewrite Hl'. cbn [line]. apply list_lookup_total_insert_eq. lia. }
  split; [by rewrite Hl'|]. split; [done|]. split.
  - intros Habs.
    pose proof (exact_search_absent n l' _ Hwf' Habs) as Hnone.
    split; [done|]. intros s Hsel.
    unfold select_entry in Hsel. rewrite Hnone in Hsel.
    unfold pref_bingo_find_event_to_fetch in Hsel.
    destruct (n =? 0); [done|].
    apply (scan_usage_order_Some _ _ _ Hwf') in Hsel as (Hlt & _ & _).
    split; [lia|]. by apply (proj1 (exact_key_absent_iff l' _ Hwf') Habs).
  - intros Hn Hnone. by apply (exact_search_None n).
Qed.

(** The full line the sixteen commits of [commit_trace] build, and the
    seventeenth commit. *)
Example commit_trace_line :
  line_at (run0 (commit_trace 16)) 100 = apply_ops (commit_ops 16) zero_line ∧
  line_at (run0 (commit_trace 17)) 100
  = add_entry (apply_ops (commit_ops 16) zero_line) (commit_record 16).
Proof. split; vm_compute; reflexivity. Qed.

Lemma bucket_bounded_lru_witness :
  let l := apply_ops (commit_ops 16) zero_line in
  let l' := add_entry l (commit_record 16) in
  current_size l = 16 ∧
  line l !!! (usage_order l !!! 15) = commit_record 0 ∧
  exact_key_absent l' 100 ∧
  pref_bingo_find_event_to_fetch_addr 1 l' 100 = None ∧
  select_entry 1 l' 100 100 = Some 0 ∧
  line l' !!! 0 = commit_record 16.
Proof.
  intros l l'.
  destruct (bucket_bounded_lru (commit_ops 16) (commit_record 16) 1)
    as (_ & _ & H).
  destruct (H eq_refl) as (_ & _ & _ & _ & _ & Hfind & _).
  assert (exact_key_absent l' 100) as Habs.
  { vm_compute. repeat (constructor; [discriminate|]). constructor. }
  split; [reflexivity|]. split; [reflexivity|]. split; [exact Habs|].
  split; [exact (proj1 (Hfind Habs))|]. split; reflexivity.
Defined.

(** C4 (as stated) fails: after the 17th insertion the key pair of the
    record that was least recently used is still found, in another slot
    holding an equal record. *)
Lemma bucket_evicted_keys_still_found :
  let l := apply_ops twin_ops zero_line in
  let v := usage_order l !!! 15 in
  let old := line l !!! v in
  let l' := add_entry l (rec_of 17 0) in
  current_size l = 16 ∧ v = 0 ∧ old = rec_of 1 0 ∧
  select_entry 1 l' (pc_plus_address old) (pc_plus_offset old) = Some 1 ∧
  pref_bingo_find_event_to_fetch_addr 1 l' (pc_plus_address old) = Some 1 ∧
  line l' !!! 1 = old.
Proof. vm_compute. repeat split. Qed.

(** ** State invariants *)

Section Properties.
Variable LOG2_DCACHE_LINE_SIZE : Z.
Variable hwp_in_id : Z.

Local Abbreviation miss := (pref_bingo_ul1_miss LOG2_DCACHE_LINE_SIZE hwp_in_id).
Local Abbreviation prefetch := (pref_bingo_prefetch LOG2_DCACHE_LINE_SIZE hwp_in_id).
Local Abbreviation do_step := (step LOG2_DCACHE_LINE_SIZE hwp_in_id).
Local Abbreviation do_run := (run LOG2_DCACHE_LINE_SIZE hwp_in_id).

(** What a miss does, by cases: it either runs the footprint tracker or
    uses a selected record and promotes by the exact key. *)
Lemma miss_cases st p a c g :
  (miss st p a c g =
     (mkState (History_Table st)
        (update_aux (Aux_Storage st) (bingo_get_page_number a)
           (bingo_get_block_index a) a c), [])
   ∧ ∀ l, History_Table st !! miss_signature a c = Some l →
          select_entry (count (History_Table st)) l
            (miss_exact a c) (miss_signature a c) = None)
  ∨ ∃ l s,
      History_Table st !! miss_signature a c = Some l ∧
      select_entry (count (History_Table st)) l
        (miss_exact a c) (miss_signature a c) = Some s ∧
      miss st p a c g =
        (mkState (<[miss_signature a c :=
                      mark_used_by_address l (miss_exact a c)]>
                    (History_Table st))
                 (Aux_Storage st),
         prefetch (line l !!! s) p (bingo_get_page_number a)).
Proof.
  unfold pref_bingo_ul1_miss, hash_table_access.
  fold (miss_signature a c) (miss_exact a c).
  destruct (History_Table st !! miss_signature a c) as [l|] eqn:Hl.
  - destruct (select_entry _ l _ _) as [s|] eqn:Hs.
    + right. by exists l, s.
    + left. split; [done|]. by intros l' [= <-].
  - left. split; [done|]. by intros l' [=].
Qed.

Lemma step_hist_wf st ev : hist_wf st → hist_wf (do_step st ev).1.
Proof.
  intros Hwf. destruct ev as [p a c g|p a c g|p a]; cbn [step fst].
  - done.
  - destruct (miss_cases st p a c g) as [[-> _]|(l & s & Hl & _ & ->)];
      [done|].
    intros k l'. cbn [fst History_Table].
    destruct (decide (miss_signature a c = k)) as [<-|Hne].
    + rewrite lookup_insert_eq. intros [= <-].
      apply wf_mark_used_by_address. by eapply Hwf.
    + rewrite lookup_insert_ne //. apply Hwf.
  - unfold pref_bingo_ul1_cache_evict, hash_table_access,
      hash_table_access_replace.
    destruct (Aux_Storage st !! _) as [e|]; [|done].
    intros k l'. cbn [History_Table].
    set (key := addr_add (pc e) (Z.shiftr a 6)).
    destruct (decide (key = k)) as [<-|Hne].
    + rewrite lookup_insert_eq. intros [= <-]. apply wf_add_entry.
      destruct (History_Table st !! key) as [l0|] eqn:Hl0;
        [by eapply Hwf|apply wf_zero_line].
    + rewrite lookup_insert_ne //. apply Hwf.
Qed.

Lemma run_hist_wf evs st : hist_wf st → hist_wf (do_run evs st).
Proof.
  revert st. induction evs as [|ev evs IH]; intros st Hwf; [done|].
  cbn [run]. by apply IH, step_hist_wf.
Qed.

Lemma init_hist_wf : hist_wf pref_bingo_init.
Proof. intros k l. cbn. by rewrite lookup_empty. Qed.

(** ** Address arithmetic *)

Lemma page_number_div a : bingo_get_page_number a = (a / 4096)%Z.
Proof. unfold bingo_get_page_number. by rewrite Z.shiftr_div_pow2. Qed.

Lemma block_index_lt a : bingo_get_block_index a < 64.
Proof.
  unfold bingo_get_block_index. change (4096 - 1)%Z with (Z.ones 12).
  rewrite Z.land_ones; [lia|]. rewrite Z.shiftr_div_pow2; [lia|].
  change (2 ^ 12)%Z with 4096%Z. change (2 ^ 6)%Z with 64%Z.
  Z.div_mod_to_equations. lia.
Qed.

(** The line address of block [i] of the page of [a] is computed without
    wrap-around. *)
Lemma block_line_addr a i :
  (0 ≤ a < 2 ^ 64)%Z → i < 64 →
  addr_add (bingo_get_page_base_from_number (bingo_get_page_number a))
           (addr_shl (Z.of_nat i) 6)
  = (4096 * (a / 4096) + 64 * Z.of_nat i)%Z.
Proof.
  intros Ha Hi. unfold addr_add, bingo_get_page_base_from_number, addr_shl,
    wrap64. rewrite page_number_div. rewrite !Z.shiftl_mul_pow2; [lia..|].
  change (2 ^ 12)%Z with 4096%Z. change (2 ^ 6)%Z with 64%Z.
  change (2 ^ 64)%Z with 18446744073709551616%Z in *.
  Z.div_mod_to_equations. lia.
Qed.

(** ** The global emptiness guard *)

Lemma lookup_count_ne_0 (table : gmap Z Bingo_Table_Line) key l :
  table !! key = Some l → count table ≠ 0.
Proof.
  intros Hl Hc. apply map_size_empty_inv in Hc. subst table.
  by rewrite lookup_empty in Hl.
Qed.

(** C9.  When the searched line comes from a successful lookup in the
    history table, the table's count is not zero, so the early return of
    both search helpers is not taken, and each helper returns what the
    search without the guard returns. *)
Theorem count_guard_redundant (table : gmap Z Bingo_Table_Line)
    (key : Z) (table_line : Bingo_Table_Line)
    (pc_plus_offset' pc_plus_address' : Z) :
  hash_table_access table key = Some table_line →
  count table ≠ 0 ∧
  pref_bingo_find_event_to_fetch (count table) table_line pc_plus_offset'
    = find_event_to_fetch_unguarded table_line pc_plus_offset' ∧
  pref_bingo_find_event_to_fetch_addr (count table) table_line
      pc_plus_address'
    = find_event_to_fetch_addr_unguarded table_line pc_plus_address'.
Proof.
  intros Hl. apply lookup_count_ne_0 in Hl. split; [done|].
  unfold pref_bingo_find_event_to_fetch, pref_bingo_find_event_to_fetch_addr.
  by destruct (Nat.eqb_spec (count table) 0).
Qed.

(** ** Lookup path *)

(** C3.  In every state the callbacks can reach, a miss whose history
    line holds a record with the query's [pc_plus_address] selects such a
    record and prefetches from it, whatever other records match the
    signature and wherever the records stand in the recency order. *)
Theorem exact_match_precedence (evs : list Event) (p a c g : Z)
    (table_line : Bingo_Table_Line) (i : nat) :
  let st := do_run evs pref_bingo_init in
  History_Table st !! miss_signature a c = Some table_line →
  i < current_size table_line →
  pc_plus_address (line table_line !!! i) = miss_exact a c →
  ∃ s, select_entry (count (History_Table st)) table_line
         (miss_exact a c) (miss_signature a c) = Some s ∧
       s < current_size table_line ∧
       pc_plus_address (line table_line !!! s) = miss_exact a c ∧
       (miss st p a c g).2
         = prefetch (line table_line !!! s) p (bingo_get_page_number a).
Proof.
  intros st Hl Hi Hpa.
  assert (wf_line table_line) as Hwf.
  { eapply (run_hist_wf evs); [apply init_hist_wf|exact Hl]. }
  pose proof (lookup_count_ne_0 _ _ _ Hl) as Hc.
  assert (∃ s, pref_bingo_find_event_to_fetch_addr (count (History_Table st))
                 table_line (miss_exact a c) = Some s) as [s Hs].
  { unfold pref_bingo_find_event_to_fetch_addr.
    destruct (Nat.eqb_spec (count (History_Table st)) 0) as [|_]; [done|].
    destruct (scan_usage_order table_line _) as [s|] eqn:Hscan;
      [by eexists|].
    pose proof (proj1 (scan_usage_order_None _ _ Hwf) Hscan i Hi) as Hno.
    cbn in Hno. lia. }
  assert (select_entry (count (History_Table st)) table_line
            (miss_exact a c) (miss_signature a c) = Some s) as Hsel.
  { unfold select_entry. by rewrite Hs. }
  exists s. split; [done|].
  unfold pref_bingo_find_event_to_fetch_addr in Hs.
  destruct (count (History_Table st) =? 0); [done|].
  apply (scan_usage_order_Some _ _ _ Hwf) in Hs as (Hlt & Heq & _).
  split; [done|]. split; [lia|].
  destruct (miss_cases st p a c g) as [[_ Hnone]|(l & s' & Hl' & Hs' & ->)].
  - rewrite (Hnone _ Hl) in Hsel. done.
  - rewrite Hl in Hl'. injection Hl' as <-. rewrite Hsel in Hs'.
    by injection Hs' as <-.
Qed.

(** C10.  A miss on which a record is selected leaves the auxiliary
    storage as it was. *)
Theorem matched_miss_leaves_aux (st : Bingo_State) (p a c g : Z)
    (table_line : Bingo_Table_Line) (s : nat) :
  History_Table st !! miss_signature a c = Some table_line →
  select_entry (count (History_Table st)) table_line
    (miss_exact a c) (miss_signature a c) = Some s →
  Aux_Storage (miss st p a c g).1 = Aux_Storage st.
Proof.
  intros Hl Hs.
  destruct (miss_cases st p a c g) as [[_ Hnone]|(l & s' & _ & _ & ->)];
    [|done].
  rewrite (Hnone _ Hl) in Hs. done.
Qed.

(** ** Prefetch emitter *)

Lemma prefetch_loop_spec (History_Entry : Bingo_History_Table)
    (p page_base : Z) (i n : nat) :
  prefetch_loop LOG2_DCACHE_LINE_SIZE hwp_in_id History_Entry p page_base i n
  = map (prefetch_request LOG2_DCACHE_LINE_SIZE hwp_in_id p page_base)
        (List.filter
           (λ j, flag (footprint (entry History_Entry)) j)
           (seq i n)).
Proof.
  revert i. induction n as [|n IH]; intros i; [done|].
  cbn [prefetch_loop seq List.filter]. rewrite IH.
  by destruct (flag (footprint (entry History_Entry)) i).
Qed.

(** The requests of a miss in closed form.  On a miss that selects a
    record, the emitted requests are, in
    increasing block order, one per set footprint bit [i] of that record,
    for the line address [page_base(page_number of the miss) + i*64]
    (exact, no wrap-around) shifted to the queue's line-index unit and cut
    to 32 bits; nothing else is emitted, so there are at most 64 requests,
    and they depend on the record through its footprint only. *)
Theorem prefetch_footprint_on_current_page (st : Bingo_State)
    (p a c g : Z) (table_line : Bingo_Table_Line) (s : nat) :
  (0 ≤ a < 2 ^ 64)%Z →
  History_Table st !! miss_signature a c = Some table_line →
  select_entry (count (History_Table st)) table_line
    (miss_exact a c) (miss_signature a c) = Some s →
  let page_base :=
    bingo_get_page_base_from_number (bingo_get_page_number a) in
  let set_bits :=
    List.filter
      (λ i, flag (footprint (entry (line table_line !!! s))) i)
      (seq 0 64) in
  page_base = (4096 * (a / 4096))%Z ∧
  (miss st p a c g).2
    = map (λ i, mkReq p
                  (wrap32 (Z.shiftr (page_base + 64 * Z.of_nat i)
                                    LOG2_DCACHE_LINE_SIZE))
                  hwp_in_id)
          set_bits ∧
  length (miss st p a c g).2 ≤ 64.
Proof.
  intros Ha Hl Hs page_base set_bits.
  assert (page_base = (4096 * (a / 4096))%Z) as Hbase.
  { pose proof (block_line_addr a 0 Ha) as H0.
    unfold addr_add, addr_shl in H0. cbn in H0.
    unfold page_base, bingo_get_page_base_from_number, addr_shl, wrap64
      in *.
    rewrite page_number_div in H0 |- *.
    rewrite Z.shiftl_mul_pow2 in H0 |- *; [lia..|].
    change (2 ^ 12)%Z with 4096%Z in *.
    change (2 ^ 64)%Z with 18446744073709551616%Z in *.
    Z.div_mod_to_equations. lia. }
  assert ((miss st p a c g).2
          = prefetch (line table_line !!! s) p (bingo_get_page_number a))
    as ->.
  { destruct (miss_cases st p a c g) as [[_ Hnone]|(l & s' & Hl' & Hs' & ->)].
    - rewrite (Hnone _ Hl) in Hs. done.
    - rewrite Hl in Hl'. injection Hl' as <-. rewrite Hs in Hs'.
      by injection Hs' as <-. }
  unfold pref_bingo_prefetch. rewrite prefetch_loop_spec.
  fold page_base set_bits. split; [done|]. split.
  - apply map_ext_in. intros i Hin.
    apply filter_In in Hin as [Hin _]. apply in_seq in Hin.
    unfold prefetch_request. f_equal. f_equal. f_equal.
    unfold page_base. rewrite block_line_addr; [done|lia|].
    fold page_base. rewrite Hbase. done.
  - rewrite length_map. etrans; [apply filter_length_le|].
    by rewrite length_seq.
Qed.

(** ** Commit path *)

Lemma update_aux_other aux q b a c P :
  q ≠ P → update_aux aux q b a c !! P = aux !! P.
Proof.
  intros Hne. unfold update_aux, hash_table_access,
    hash_table_access_replace.
  destruct (aux !! q); by rewrite lookup_insert_ne.
Qed.

(** A callback for another page leaves the live record of [P] alone. *)
Lemma step_aux_other st ev P :
  event_page ev ≠ P →
  Aux_Storage (do_step st ev).1 !! P = Aux_Storage st !! P.
Proof.
  destruct ev as [p a c g|p a c g|p a]; cbn [event_page step fst];
    intros Hne.
  - by apply update_aux_other.
  - destruct (miss_cases st p a c g) as [[-> _]|(l & s & _ & _ & ->)];
      [|done].
    by apply update_aux_other.
  - unfold pref_bingo_ul1_cache_evict, hash_table_access,
      hash_table_access_delete.
    destruct (Aux_Storage st !! _); [|done].
    cbn [Aux_Storage]. by rewrite lookup_delete_ne.
Qed.

Lemma evict_untracked st p a :
  Aux_Storage st !! bingo_get_page_number a = None →
  pref_bingo_ul1_cache_evict st p a = st.
Proof.
  intros Hn. unfold pref_bingo_ul1_cache_evict, hash_table_access.
  by rewrite Hn.
Qed.

Lemma run_skips_evictions P rest st :
  Aux_Storage st !! P = None →
  Forall (λ ev, accesses P ev = false) rest →
  do_run rest st = do_run (List.filter (λ ev, negb (evicts P ev)) rest) st.
Proof.
  revert st. induction rest as [|ev rest IH]; intros st Hn Hrest; [done|].
  apply Forall_cons in Hrest as [Hev Hrest].
  cbn [run List.filter].
  destruct (evicts P ev) eqn:He; cbn [negb].
  - destruct ev as [| |p a]; [done..|]. cbn in He.
    apply Z.eqb_eq in He. cbn [step fst].
    rewrite evict_untracked; [by rewrite He|]. by apply IH.
  - cbn [run]. apply IH; [|done].
    rewrite step_aux_other; [|done].
    destruct ev as [p a c g|p a c g|p a]; cbn in *; lia.
Qed.

(** ** Footprint tracker *)

Lemma flag_set_accessed e b i :
  b < length (accessed (footprint e)) →
  flag (footprint (set_accessed e b)) i = true
  ↔ flag (footprint e) i = true ∨ i = b.
Proof.
  intros Hb. unfold flag, set_accessed. cbn [footprint accessed].
  destruct (decide (i = b)) as [->|Hne].
  - rewrite list_lookup_insert_eq //. cbn. by intuition.
  - rewrite list_lookup_insert_ne; [done|]. by intuition.
Qed.

Lemma flag_set_accessed_mono e b i :
  flag (footprint e) i = true → flag (footprint (set_accessed e b)) i = true.
Proof.
  unfold flag, set_accessed. cbn [footprint accessed].
  rewrite list_lookup_insert.
  case_decide as Hc; [|done]. by destruct Hc as [-> _].
Qed.

Lemma flag_zero i : flag (footprint zero_aux) i = false.
Proof.
  unfold flag. cbn [footprint zero_aux accessed].
  destruct (replicate 64 false !! i) as [b|] eqn:Hb; [|done].
  by apply lookup_replicate in Hb as [-> _].
Qed.

Lemma step_aux_recorded st ev P b :
  recorded st P ev = Some b →
  b < 64 ∧
  Aux_Storage (do_step st ev).1 !! P
  = Some (match Aux_Storage st !! P with
          | Some e => set_accessed e b
          | None => set_accessed (mkAux (event_addr ev) (event_pc ev)
                                        (footprint zero_aux)) b
          end).
Proof.
  assert (∀ a c, bingo_get_page_number a = P →
            update_aux (Aux_Storage st) (bingo_get_page_number a)
              (bingo_get_block_index a) a c !! P
            = Some (match Aux_Storage st !! P with
                    | Some e => set_accessed e (bingo_get_block_index a)
                    | None => set_accessed (mkAux a c (footprint zero_aux))
                                (bingo_get_block_index a)
                    end)) as Hupd.
  { intros a c ->. unfold update_aux, hash_table_access,
      hash_table_access_replace.
    destruct (Aux_Storage st !! _); by rewrite lookup_insert_eq. }
  destruct ev as [p a c g|p a c g|p a]; cbn [recorded step fst]; [| |done].
  - destruct (Z.eqb_spec (bingo_get_page_number a) P) as [HP|]; [|done].
    intros [= <-]. split; [apply block_index_lt|]. by apply Hupd.
  - destruct (Z.eqb_spec (bingo_get_page_number a) P) as [HP|]; [|done].
    intros Hrec.
    destruct (miss_cases st p a c g) as [[-> _]|(l & s & Hl & Hs & _)].
    + assert (b = bingo_get_block_index a) as ->.
      { destruct (History_Table st !! _) as [l|]; [|by injection Hrec].
        destruct (select_entry _ _ _ _); [done|by injection Hrec]. }
      split; [apply block_index_lt|]. by apply Hupd.
    + by rewrite Hl Hs in Hrec.
Qed.

Lemma step_aux_not_recorded st ev P :
  evicts P ev = false → recorded st P ev = None →
  Aux_Storage (do_step st ev).1 !! P = Aux_Storage st !! P.
Proof.
  destruct ev as [p a c g|p a c g|p a]; cbn [evicts recorded]; intros He.
  - destruct (Z.eqb_spec (bingo_get_page_number a) P) as [HP|HP]; [done|].
    intros _. by apply step_aux_other.
  - destruct (Z.eqb_spec (bingo_get_page_number a) P) as [HP|HP];
      [|intros _; by apply step_aux_other].
    intros Hrec. cbn [step].
    destruct (miss_cases st p a c g) as [[_ Hnone]|(l & s & _ & _ & ->)];
      [|done].
    destruct (History_Table st !! _) as [l|] eqn:Hl; [|done].
    by rewrite (Hnone l eq_refl) in Hrec.
  - intros _. apply step_aux_other. cbn. lia.
Qed.

(** Along a run without an eviction of [P], a live record keeps its
    trigger and gains exactly the recorded blocks. *)
Lemma footprint_tracks P evs st e :
  Forall (λ ev, evicts P ev = false) evs →
  Aux_Storage st !! P = Some e → length (accessed (footprint e)) = 64 →
  ∃ e', Aux_Storage (do_run evs st) !! P = Some e' ∧
        trigger_addr e' = trigger_addr e ∧ pc e' = pc e ∧
        ∀ i, flag (footprint e') i = true
             ↔ flag (footprint e) i = true
               ∨ i ∈ recorded_blocks LOG2_DCACHE_LINE_SIZE hwp_in_id P evs st.
Proof.
  intros Hevs. revert st e.
  induction Hevs as [|ev evs Hev Hevs IH]; intros st e He Hlen.
  - exists e. repeat split; [done|by left|]. intros [|Hin]; [done|].
    by apply elem_of_nil in Hin.
  - cbn [run recorded_blocks].
    destruct (recorded st P ev) as [b|] eqn:Hrec.
    + destruct (step_aux_recorded _ _ _ _ Hrec) as [Hb Hstep].
      rewrite He in Hstep.
      destruct (IH _ _ Hstep) as (e' & He' & Ht & Hp & Hbits).
      { cbn. by rewrite length_insert. }
      exists e'. repeat split; [done..| |].
      * intros Hi. apply Hbits in Hi as [Hi|Hi].
        -- apply flag_set_accessed in Hi as [Hi| ->]; [by left| |lia].
           right. cbn. apply elem_of_cons. by left.
        -- right. cbn. apply elem_of_cons. by right.
      * intros Hi. apply Hbits. destruct Hi as [Hi|Hi].
        -- left. by apply flag_set_accessed_mono.
        -- cbn in Hi. apply elem_of_cons in Hi as [->|Hi]; [|by right].
           left. apply flag_set_accessed; [lia|by right].
    + pose proof (step_aux_not_recorded _ _ _ Hev Hrec) as Hstep.
      rewrite He in Hstep.
      destruct (IH _ _ Hstep Hlen) as (e' & He' & Ht & Hp & Hbits).
      by exists e'.
Qed.

(** Without the length assumption: bits are never cleared. *)
Lemma footprint_never_cleared P evs st e i :
  Forall (λ ev, evicts P ev = false) evs →
  Aux_Storage st !! P = Some e → flag (footprint e) i = true →
  ∃ e', Aux_Storage (do_run evs st) !! P = Some e' ∧
        trigger_addr e' = trigger_addr e ∧ pc e' = pc e ∧
        flag (footprint e') i = true.
Proof.
  intros Hevs. revert st e.
  induction Hevs as [|ev evs Hev Hevs IH]; intros st e He Hi.
  - by exists e.
  - cbn [run].
    destruct (recorded st P ev) as [b|] eqn:Hrec.
    + destruct (step_aux_recorded _ _ _ _ Hrec) as [Hb Hstep].
      rewrite He in Hstep.
      destruct (IH _ _ Hstep (flag_set_accessed_mono _ b _ Hi))
        as (e' & He' & Ht & Hp & Hbit).
      by exists e'.
    + pose proof (step_aux_not_recorded _ _ _ Hev Hrec) as Hstep.
      rewrite He in Hstep. by apply IH.
Qed.

(** C7 (as amended).  While no line of page [P] is evicted, the
    callbacks only set footprint bits of the live record of [P] and leave
    its trigger fields alone; and from a state in which [P] is untracked,
    the set bits of its record are at every later point exactly the blocks
    of the observations that ran the footprint tracker for [P]: the hits,
    and the misses on which no history record was selected. *)
Theorem footprint_monotone_recorded (st : Bingo_State) (P : Z)
    (evs : list Event) :
  Forall (λ ev, evicts P ev = false) evs →
  (∀ e i, Aux_Storage st !! P = Some e → flag (footprint e) i = true →
     ∃ e', Aux_Storage (do_run evs st) !! P = Some e' ∧
           trigger_addr e' = trigger_addr e ∧ pc e' = pc e ∧
           flag (footprint e') i = true) ∧
  (Aux_Storage st !! P = None →
   match Aux_Storage (do_run evs st) !! P with
   | Some e' =>
       ∀ i, flag (footprint e') i = true
            ↔ i ∈ recorded_blocks LOG2_DCACHE_LINE_SIZE hwp_in_id P evs st
   | None => recorded_blocks LOG2_DCACHE_LINE_SIZE hwp_in_id P evs st = []
   end).
Proof.
  intros Hevs. split.
  { intros e i He Hi. by apply footprint_never_cleared. }
  revert st. induction Hevs as [|ev evs Hev Hevs IH]; intros st Hnone.
  - cbn. by rewrite Hnone.
  - cbn [run recorded_blocks].
    destruct (recorded st P ev) as [b|] eqn:Hrec.
    + destruct (step_aux_recorded _ _ _ _ Hrec) as [Hb Hstep].
      rewrite Hnone in Hstep.
      destruct (footprint_tracks P evs _ _ Hevs Hstep)
        as (e' & -> & _ & _ & Hbits).
      { cbn. by rewrite length_insert. }
      intros i. rewrite Hbits elem_of_cons. split.
      * intros [Hi|Hi]; [|by right].
        apply flag_set_accessed in Hi as [Hi| ->]; [|by left|cbn; lia].
        cbn in Hi. by rewrite flag_zero in Hi.
      * intros [->|Hi]; [|by right].
        left. apply flag_set_accessed; [cbn; lia|by right].
    + apply IH.
      by rewrite (step_aux_not_recorded _ _ _ Hev Hrec).
Qed.

(** ** Exact keys within a line *)

Lemma NoDup_fmap_insert {A B} (f : A → B) (l : list A) i x :
  NoDup (f <$> l) → f x ∉ f <$> l → NoDup (f <$> <[i:=x]> l).
Proof.
  revert i. induction l as [|y l IH]; intros i Hnd Hx; [done|].
  cbn in Hnd, Hx. apply NoDup_cons in Hnd as [Hy Hnd].
  apply not_elem_of_cons in Hx as [Hxy Hx].
  destruct i as [|i]; cbn.
  - apply NoDup_cons. by split.
  - apply NoDup_cons. split; [|by apply IH].
    rewrite list_fmap_insert. intros Hin.
    apply list_elem_of_lookup_1 in Hin as [j Hj].
    apply list_lookup_insert_Some in Hj as [(_ & Heq & _)|[_ Hj]].
    + by apply Hxy.
    + apply Hy. by eapply list_elem_of_lookup_2.
Qed.

Lemma mark_used_by_address_slots l a :
  line (mark_used_by_address l a) = line l ∧
  current_size (mark_used_by_address l a) = current_size l.
Proof.
  unfold mark_used_by_address.
  destruct (for_first _ 0 (current_size l)) as [f|]; [|done].
  by destruct (for_first _ 0 (current_size l)).
Qed.

Lemma nodup_line_add_entry l r :
  wf_line l → nodup_line l →
  pc_plus_address r ∉ pc_plus_address <$> take (current_size l) (line l) →
  nodup_line (add_entry l r).
Proof.
  intros Hwf Hnd Hr. pose proof Hwf as (Hl & Hu & Hs & _).
  unfold nodup_line in *.
  destruct (decide (current_size l < 16)) as [Hlt|Hge].
  - rewrite add_entry_free //. cbn [line current_size].
    assert (is_Some (<[current_size l := r]> (line l) !! current_size l))
      as [x Hx].
    { apply lookup_lt_is_Some. rewrite length_insert. lia. }
    rewrite (take_S_r _ _ _ Hx). rewrite take_insert_ge; [lia|].
    rewrite list_lookup_insert_eq in Hx; [lia|]. injection Hx as <-.
    rewrite fmap_app. apply NoDup_app. split; [done|]. split.
    + intros y Hy Hin. apply list_elem_of_singleton in Hin as ->. done.
    + apply NoDup_singleton.
  - rewrite add_entry_full //. cbn [line current_size].
    rewrite take_insert_lt.
    { apply usage_order_lt; [done|lia]. }
    by apply NoDup_fmap_insert.
Qed.

Lemma step_no_dup st ev :
  hist_wf st → no_duplicate_exact_keys st → fresh_commit st ev = true →
  no_duplicate_exact_keys (do_step st ev).1.
Proof.
  intros Hwf Hnd Hfresh.
  destruct ev as [p a c g|p a c g|p a]; cbn [step fst].
  - done.
  - destruct (miss_cases st p a c g) as [[-> _]|(l & s & Hl & _ & ->)];
      [done|].
    intros k l'. cbn [fst History_Table].
    destruct (decide (miss_signature a c = k)) as [<-|Hne].
    + rewrite lookup_insert_eq. intros [= <-]. unfold nodup_line.
      destruct (mark_used_by_address_slots l (miss_exact a c)) as [-> ->].
      by eapply Hnd.
    + rewrite lookup_insert_ne //. apply Hnd.
  - cbn [fresh_commit] in Hfresh.
    unfold pref_bingo_ul1_cache_evict, hash_table_access,
      hash_table_access_replace.
    destruct (Aux_Storage st !! _) as [e|]; [|done].
    intros k l'. cbn [History_Table].
    set (key := addr_add (pc e) (Z.shiftr a 6)) in *.
    destruct (decide (key = k)) as [<-|Hne];
      [|rewrite lookup_insert_ne //; apply Hnd].
    rewrite lookup_insert_eq. intros [= <-].
    destruct (History_Table st !! key) as [l0|] eqn:Hl0.
    + apply nodup_line_add_entry; [by eapply Hwf|by eapply Hnd|].
      cbn [pc_plus_address]. intros Hin.
      apply list_elem_of_fmap in Hin as (y & Hy & Hin).
      apply list_elem_of_In in Hin.
      pose proof (proj1 (forallb_forall _ _) Hfresh y Hin) as Hyb.
      cbn in Hyb. lia.
    + apply nodup_line_add_entry; [apply wf_zero_line|apply NoDup_nil_2|].
      cbn. apply not_elem_of_nil.
Qed.

Lemma run_no_dup evs st :
  hist_wf st → no_duplicate_exact_keys st →
  all_fresh LOG2_DCACHE_LINE_SIZE hwp_in_id evs st = true →
  no_duplicate_exact_keys (do_run evs st).
Proof.
  revert st. induction evs as [|ev evs IH]; intros st Hwf Hnd Hfresh;
    [done|].
  cbn [all_fresh] in Hfresh. apply andb_prop in Hfresh as [Hev Hevs].
  cbn [run]. apply IH; [by apply step_hist_wf|by apply step_no_dup|done].
Qed.

(** C6 (as amended).  From the initial empty stores, no history line
    holds two occupied slots with equal [pc_plus_address] as long as no
    eviction commits a record whose [pc_plus_address] an occupied slot of
    its line already carries; hits and misses never create a duplicate. *)
Theorem no_duplicate_keys_if_fresh (evs : list Event) :
  all_fresh LOG2_DCACHE_LINE_SIZE hwp_in_id evs pref_bingo_init = true →
  no_duplicate_exact_keys (do_run evs pref_bingo_init).
Proof.
  apply run_no_dup; [apply init_hist_wf|].
  intros k l. cbn. by rewrite lookup_empty.
Qed.


(** The signature a commit stores and the signature a miss looks up
    agree only when the aligned miss address equals the evicted line's
    index. *)
Lemma commit_and_miss_signatures_agree (I X Y : Z) :
  (0 ≤ I < 2 ^ 64)%Z → (0 ≤ X < 2 ^ 64)%Z → (0 ≤ Y < 2 ^ 64)%Z →
  miss_signature Y I = addr_add I (Z.shiftr X 6)
  ↔ (64 * (Y / 64) = X / 64)%Z.
Proof.
  intros HI HX HY. unfold miss_signature, addr_add, addr_shl, wrap64.
  rewrite !Z.shiftr_div_pow2; [lia..|]. rewrite Z.shiftl_mul_pow2; [lia|].
  change (2 ^ 6)%Z with 64%Z.
  change (2 ^ 64)%Z with 18446744073709551616%Z in *.
  Z.div_mod_to_equations. lia.
Qed.

End Properties.

(** * Concrete runs *)

Example mixed_line :
  let l := line_at (run0 mixed_trace) 5 in
  current_size l = 2 ∧ take 2 (usage_order l) = [1; 0] ∧
  pc_plus_address <$> take 2 (line l) = [5%Z; 68%Z] ∧
  pc_plus_offset <$> take 2 (line l) = [5%Z; 5%Z].
Proof. vm_compute. repeat split. Qed.

Lemma count_guard_redundant_witness :
  let table := History_Table (run0 mixed_trace) in
  let l := line_at (run0 mixed_trace) 5 in
  hash_table_access table 5 = Some l ∧
  count table ≠ 0 ∧
  pref_bingo_find_event_to_fetch (count table) l 5
    = find_event_to_fetch_unguarded l 5 ∧
  pref_bingo_find_event_to_fetch_addr (count table) l 68
    = find_event_to_fetch_addr_unguarded l 68.
Proof.
  intros table l.
  assert (hash_table_access table 5 = Some l) as H by (vm_compute; reflexivity).
  split; [exact H|]. exact (count_guard_redundant table 5 l 5 68 H).
Defined.

Lemma exact_match_precedence_witness :
  let st := run0 mixed_trace in
  let l := line_at st 5 in
  History_Table st !! miss_signature 0 5 = Some l ∧
  0 < current_size l ∧
  pc_plus_address (line l !!! 0) = miss_exact 0 5 ∧
  ∃ s, select_entry (count (History_Table st)) l
         (miss_exact 0 5) (miss_signature 0 5) = Some s ∧
       s < current_size l ∧
       pc_plus_address (line l !!! s) = miss_exact 0 5 ∧
       (miss0 st 0 0 5 0).2
         = pref_bingo_prefetch 6 0 (line l !!! s) 0 (bingo_get_page_number 0).
Proof.
  intros st l.
  assert (History_Table st !! miss_signature 0 5 = Some l) as H1
    by (vm_compute; reflexivity).
  assert (0 < current_size l) as H2 by (vm_compute; lia).
  assert (pc_plus_address (line l !!! 0) = miss_exact 0 5) as H3
    by (vm_compute; reflexivity).
  split; [exact H1|]. split; [exact H2|]. split; [exact H3|].
  exact (exact_match_precedence 6 0 mixed_trace 0 0 5 0 l 0 H1 H2 H3).
Defined.

Lemma matched_miss_leaves_aux_witness :
  let st := run0 (mixed_trace ++ [Hit 0 128 9 0]) in
  let l := line_at st 5 in
  History_Table st !! miss_signature 0 5 = Some l ∧
  select_entry (count (History_Table st)) l
    (miss_exact 0 5) (miss_signature 0 5) = Some 0 ∧
  Aux_Storage (miss0 st 0 0 5 0).1 = Aux_Storage st.
Proof.
  intros st l.
  assert (History_Table st !! miss_signature 0 5 = Some l) as H1
    by (vm_compute; reflexivity).
  assert (select_entry (count (History_Table st)) l
            (miss_exact 0 5) (miss_signature 0 5) = Some 0) as H2
    by (vm_compute; reflexivity).
  split; [exact H1|]. split; [exact H2|].
  exact (matched_miss_leaves_aux 6 0 st 0 0 5 0 l 0 H1 H2).
Defined.

Lemma prefetch_footprint_on_current_page_witness :
  let st := run0 mixed_trace in
  let l := line_at st 5 in
  (0 ≤ 0 < 2 ^ 64)%Z ∧
  History_Table st !! miss_signature 0 5 = Some l ∧
  select_entry (count (History_Table st)) l
    (miss_exact 0 5) (miss_signature 0 5) = Some 0 ∧
  (miss0 st 0 0 5 0).2
    = map (λ i, mkReq 0
                  (wrap32 (Z.shiftr
                     (bingo_get_page_base_from_number
                        (bingo_get_page_number 0) + 64 * Z.of_nat i) 6))
                  0)
          (set_bits (line l !!! 0)).
Proof.
  intros st l.
  assert (0 ≤ 0 < 2 ^ 64)%Z as H0 by lia.
  assert (History_Table st !! miss_signature 0 5 = Some l) as H1
    by (vm_compute; reflexivity).
  assert (select_entry (count (History_Table st)) l
            (miss_exact 0 5) (miss_signature 0 5) = Some 0) as H2
    by (vm_compute; reflexivity).
  split; [exact H0|]. split; [exact H1|]. split; [exact H2|].
  exact (proj1 (proj2
    (prefetch_footprint_on_current_page 6 0 st 0 0 5 0 l 0 H0 H1 H2))).
Defined.

Lemma footprint_monotone_recorded_witness :
  let evs := [Hit 0 0 5 0; Hit 0 192 5 0; Evict 0 4096; Hit 0 64 5 0] in
  Forall (λ ev, evicts 0 ev = false) evs ∧
  match Aux_Storage (run0 evs) !! 0%Z with
  | Some e' =>
      ∀ i, flag (footprint e') i = true
           ↔ i ∈ recorded_blocks 6 0 0 evs pref_bingo_init
  | None => recorded_blocks 6 0 0 evs pref_bingo_init = []
  end.
Proof.
  intros evs.
  assert (Forall (λ ev, evicts 0 ev = false) evs) as H
    by (repeat constructor).
  split; [exact H|].
  exact (proj2 (footprint_monotone_recorded 6 0 pref_bingo_init 0 evs H)
               eq_refl).
Defined.

(** C7 (as stated) fails: page 0 has a live record when a miss to its
    block 1 selects a history record; block 1 was observed but its bit is
    not set. *)
Lemma footprint_misses_predicted_block :
  let st0 := run0 [Hit 0 4096 0 0; Evict 0 4096] in
  let evs := [Hit 0 0 0 0; Miss 0 64 0 0] in
  Aux_Storage st0 !! 0%Z = None ∧
  Forall (λ ev, evicts 0 ev = false) evs ∧
  observed_blocks 0 evs = [0; 1] ∧
  (step 6 0 (run 6 0 [Hit 0 0 0 0] st0) (Miss 0 64 0 0)).2 = [mkReq 0 0 0] ∧
  aux_set_bits <$> Aux_Storage (run 6 0 evs st0) !! 0%Z = Some [0].
Proof. vm_compute. repeat split; repeat constructor. Qed.

Lemma no_duplicate_keys_if_fresh_witness :
  all_fresh 6 0 (mixed_trace ++ [Miss 0 0 5 0]) pref_bingo_init = true ∧
  no_duplicate_exact_keys (run0 (mixed_trace ++ [Miss 0 0 5 0])).
Proof.
  assert (all_fresh 6 0 (mixed_trace ++ [Miss 0 0 5 0]) pref_bingo_init
          = true) as H by (vm_compute; reflexivity).
  split; [exact H|].
  exact (no_duplicate_keys_if_fresh 6 0 (mixed_trace ++ [Miss 0 0 5 0]) H).
Defined.

(** C6 (as stated) fails: committing line 0 twice from instruction 5
    leaves two occupied slots with [pc_plus_address] 5 in one line. *)
Lemma duplicate_exact_keys_reachable :
  ¬ no_duplicate_exact_keys (run0 twice_trace).
Proof.
  intros Hnd.
  assert (History_Table (run0 twice_trace) !! 5%Z
          = Some (line_at (run0 twice_trace) 5)) as Hl
    by (vm_compute; reflexivity).
  apply Hnd in Hl. unfold nodup_line in Hl.
  assert (pc_plus_address
            <$> take (current_size (line_at (run0 twice_trace) 5))
                     (line (line_at (run0 twice_trace) 5))
          = [5%Z; 5%Z]) as Heq by (vm_compute; reflexivity).
  rewrite Heq in Hl. apply NoDup_cons in Hl as [Hin _].
  apply Hin. by left.
Qed.

(** C2: the code at the failing input.  Line 0 was committed twice from
    instruction 5 (slot 0 with footprint {0}, slot 1 with footprint {1},
    slot 1 most recently used).  The miss of instruction 5 at line 0
    selects slot 1 and prefetches block 1 from it, and then moves slot 0 to
    the front of the recency order: the selected record ends up last. *)
Theorem selected_record_not_promoted :
  let st := run0 twice_trace in
  let l := line_at st 5 in
  let st' := (miss0 st 0 0 5 0).1 in
  let l' := line_at st' 5 in
  History_Table st !! miss_signature 0 5 = Some l ∧
  current_size l = 2 ∧ take 2 (usage_order l) = [1; 0] ∧
  set_bits <$> take 2 (line l) = [[0]; [1]] ∧
  select_entry (count (History_Table st)) l
    (miss_exact 0 5) (miss_signature 0 5) = Some 1 ∧
  (miss0 st 0 0 5 0).2 = [mkReq 0 1 0] ∧
  History_Table st' !! miss_signature 0 5 = Some l' ∧
  line l' = line l ∧ take 2 (usage_order l') = [0; 1].
Proof. vm_compute. repeat split. Qed.

(** C1: the code at the failing input.  Instruction [0x400000] misses
    on line [0x10000] (page 16, block 0) and hits on the next line; the
    eviction of line [0x10000] commits footprint {0,1} under signature
    [0x400000 + 0x400] (the line index).  The later miss of the same
    instruction on block 0 of page 17 looks under
    [0x400000 + 0x11000] (the aligned address), finds no history line,
    emits no request and starts a live record for page 17 instead. *)
Theorem round_trip_signature_mismatch :
  let I := 4194304%Z in
  let X := 65536%Z in
  let Y := 69632%Z in
  let st := run0 [Miss 0 X I 0; Hit 0 (X + 64) I 0; Evict 0 X] in
  let l := line_at st (I + 1024) in
  bingo_get_page_number X = 16%Z ∧ bingo_get_page_number Y = 17%Z ∧
  bingo_get_block_index X = bingo_get_block_index Y ∧
  History_Table st !! (I + 1024)%Z = Some l ∧
  current_size l = 1 ∧
  pc_plus_offset (line l !!! 0) = (I + 1024)%Z ∧
  set_bits (line l !!! 0) = [0; 1] ∧
  Aux_Storage st !! 16%Z = None ∧
  miss_signature Y I = (I + 69632)%Z ∧
  History_Table st !! miss_signature Y I = None ∧
  (miss0 st 0 Y I 0).2 = [] ∧
  aux_set_bits <$> Aux_Storage (miss0 st 0 Y I 0).1 !! 17%Z = Some [0].
Proof. vm_compute. repeat split. Qed.

(** * Further properties of the callbacks and the line operations *)

Section Coverage.
Variable LOG2_DCACHE_LINE_SIZE : Z.
Variable hwp_in_id : Z.

Local Abbreviation miss := (pref_bingo_ul1_miss LOG2_DCACHE_LINE_SIZE hwp_in_id).
Local Abbreviation prefetch := (pref_bingo_prefetch LOG2_DCACHE_LINE_SIZE hwp_in_id).
Local Abbreviation do_step := (step LOG2_DCACHE_LINE_SIZE hwp_in_id).
Local Abbreviation do_run := (run LOG2_DCACHE_LINE_SIZE hwp_in_id).

(** ** Address decomposition *)

(** X1.  A 64-bit address splits without loss into the base of its page,
    its block within the page and the byte within the block; the block
    index is below 64 and the page number below 2^52. *)
Theorem address_decomposition (a : Z) :
  (0 ≤ a < 2 ^ 64)%Z →
  (bingo_get_page_base_from_number (bingo_get_page_number a)
   + 64 * Z.of_nat (bingo_get_block_index a) + a mod 64 = a)%Z ∧
  bingo_get_block_index a < 64 ∧
  (0 ≤ bingo_get_page_number a < 2 ^ 52)%Z.
Proof.
  intros Ha. split; [|split; [apply block_index_lt|]].
  - unfold bingo_get_page_base_from_number, addr_shl, wrap64,
      bingo_get_block_index.
    rewrite page_number_div. rewrite Z.shiftl_mul_pow2; [lia|].
    change (4096 - 1)%Z with (Z.ones 12). rewrite Z.land_ones; [lia|].
    rewrite Z.shiftr_div_pow2; [lia|]. rewrite Z2Nat.id.
    { change (2 ^ 12)%Z with 4096%Z. change (2 ^ 6)%Z with 64%Z.
      Z.div_mod_to_equations. lia. }
    change (2 ^ 12)%Z with 4096%Z. change (2 ^ 6)%Z with 64%Z.
    change (2 ^ 64)%Z with 18446744073709551616%Z in *.
    Z.div_mod_to_equations. lia.
  - rewrite page_number_div.
    change (2 ^ 52)%Z with 4503599627370496%Z.
    change (2 ^ 64)%Z with 18446744073709551616%Z in *.
    Z.div_mod_to_equations. lia.
Qed.

(** X2.  For a page number below 2^52, the address the prefetch emitter
    forms for block [i < 64] lies in that page, at block [i]: page number
    and block index read it back. *)
Theorem prefetch_target_in_page (n : Z) (i : nat) :
  (0 ≤ n < 2 ^ 52)%Z → i < 64 →
  let target :=
    addr_add (bingo_get_page_base_from_number n) (addr_shl (Z.of_nat i) 6) in
  target = (4096 * n + 64 * Z.of_nat i)%Z ∧
  bingo_get_page_number target = n ∧
  bingo_get_block_index target = i.
Proof.
  intros Hn Hi target.
  assert (target = (4096 * n + 64 * Z.of_nat i)%Z) as Ht.
  { unfold target, addr_add, bingo_get_page_base_from_number, addr_shl,
      wrap64. rewrite !Z.shiftl_mul_pow2; [lia..|].
    change (2 ^ 12)%Z with 4096%Z. change (2 ^ 6)%Z with 64%Z.
    change (2 ^ 52)%Z with 4503599627370496%Z in *.
    change (2 ^ 64)%Z with 18446744073709551616%Z in *.
    Z.div_mod_to_equations. lia. }
  split; [done|]. rewrite Ht. split.
  - rewrite page_number_div. Z.div_mod_to_equations. lia.
  - unfold bingo_get_block_index.
    change (4096 - 1)%Z with (Z.ones 12). rewrite Z.land_ones; [lia|].
    rewrite Z.shiftr_div_pow2; [lia|].
    change (2 ^ 12)%Z with 4096%Z. change (2 ^ 6)%Z with 64%Z.
    apply Nat2Z.inj. rewrite Z2Nat.id; Z.div_mod_to_equations; lia.
Qed.

(** ** Searching a line *)

Lemma for_first_as_filter (test : nat → bool) (uo : list nat) i n :
  i + n ≤ length uo →
  ((λ j, uo !!! j) <$> for_first (λ j, test (uo !!! j)) i n)
  = head (List.filter test (take n (drop i uo))).
Proof.
  revert i. induction n as [|n IH]; intros i Hlen; [done|].
  assert (uo !! i = Some (uo !!! i)) as Hi
    by (apply list_lookup_lookup_total_lt; lia).
  rewrite (drop_S _ _ _ Hi). cbn [for_first take List.filter].
  destruct (test (uo !!! i)); [done|]. apply IH. lia.
Qed.

(** A search returns the first slot, in recency order, whose record
    passes the test. *)
Lemma scan_usage_order_as_filter l test :
  current_size l ≤ length (usage_order l) →
  scan_usage_order l test
  = head (List.filter (λ s, test (line l !!! s))
                      (take (current_size l) (usage_order l))).
Proof.
  intros Hlen. unfold scan_usage_order.
  rewrite -(for_first_as_filter (λ s, test (line l !!! s))
              (usage_order l) 0 (current_size l)); [lia|].
  by destruct (for_first _ 0 (current_size l)).
Qed.

(** The recency prefix after an insertion: the written slot, then the
    old prefix (without its last cell when the line was full). *)
Lemma add_entry_prefix l e :
  wf_line l →
  let l' := add_entry l e in
  let idx := if current_size l <? 16 then current_size l
             else usage_order l !!! 15 in
  let kept := if current_size l <? 16 then current_size l else 15 in
  line l' = <[idx := e]> (line l) ∧
  take (current_size l') (usage_order l')
    = idx :: take kept (usage_order l) ∧
  current_size l' = S kept ∧ idx < 16 ∧
  (idx ∉ take kept (usage_order l)) ∧
  (∀ s, s ∈ take kept (usage_order l) → s < current_size l).
Proof.
  intros Hwf l' idx kept. pose proof Hwf as (Hl & Hu & Hs & Hp).
  assert (∀ s, s ∈ take kept (usage_order l) → s < current_size l) as Hold.
  { intros s Hin. assert (s ∈ take (current_size l) (usage_order l)) as Hin'.
    { unfold kept in Hin.
      destruct (Nat.ltb_spec (current_size l) 16); [done|].
      replace (current_size l) with 16 by lia.
      apply list_elem_of_lookup_1 in Hin as [j Hj].
      apply lookup_take_Some in Hj as [Hj Hlt].
      apply (list_elem_of_lookup_2 _ j). rewrite lookup_take_lt //. lia. }
    rewrite Hp in Hin'. apply elem_of_seq in Hin'. lia. }
  unfold l', idx, kept in *.
  destruct (Nat.ltb_spec (current_size l) 16) as [Hlt|Hge].
  - rewrite add_entry_free //. cbn [line usage_order current_size].
    repeat split; [|lia|..|done].
    + cbn [take]. by rewrite take_app_length'; [rewrite length_take; lia|].
    + intros Hin. apply Hold in Hin. lia.
  - rewrite add_entry_full //; [lia|]. cbn [line usage_order current_size].
    assert (current_size l = 16) as Hc by lia. rewrite Hc in Hp |- *.
    assert (usage_order l !! 15 = Some (usage_order l !!! 15)) as Hv
      by (apply list_lookup_lookup_total_lt; lia).
    repeat split; [| | |intros s Hin; apply Hold in Hin; lia].
    + cbn [take]. rewrite take_take. done.
    + pose proof (usage_order_lt l 15 Hwf). lia.
    + intros Hin. assert (NoDup (take 16 (usage_order l))) as Hnd.
      { rewrite Hp. apply NoDup_seq. }
      rewrite (take_S_r _ 15 _ Hv) in Hnd.
      apply NoDup_app in Hnd as (_ & Hdis & _).
      apply (Hdis _ Hin). by apply list_elem_of_singleton.
Qed.


Lemma scan_add_entry_front l e test :
  wf_line l → test e = true →
  let l' := add_entry l e in
  scan_usage_order l' test = Some (usage_order l' !!! 0) ∧
  usage_order l' !!! 0 < current_size l' ∧
  line l' !!! (usage_order l' !!! 0) = e.
Proof.
  intros Hwf Ht l'.
  destruct (add_entry_prefix l e Hwf) as (Hline & Hpre & Hcs & Hidx & _ & _).
  fold l' in Hline, Hpre, Hcs.
  pose proof (wf_add_entry l e Hwf) as (Hl' & Hu' & Hs' & _). fold l' in Hl', Hu', Hs'.
  set (idx := if current_size l <? 16 then current_size l
              else usage_order l !!! 15) in *.
  assert (usage_order l' !!! 0 = idx) as H0.
  { apply list_lookup_total_correct.
    rewrite -(lookup_take_lt _ (current_size l')); [lia|]. by rewrite Hpre. }
  assert (line l' !!! idx = e) as He.
  { rewrite Hline. apply list_lookup_total_insert_eq.
    destruct Hwf as (Hl & _). lia. }
  rewrite H0. split; [|split; [|done]].
  - rewrite scan_usage_order_as_filter; [lia|]. rewrite Hpre.
    cbn [List.filter]. by rewrite He Ht.
  - unfold idx. destruct (Nat.ltb_spec (current_size l) 16); [lia|].
    pose proof (usage_order_lt l 15 Hwf). lia.
Qed.

Lemma scan_add_entry_other l e test :
  wf_line l → test e = false →
  (current_size l = 16 →
   test (line l !!! (usage_order l !!! 15)) = false) →
  scan_usage_order (add_entry l e) test = scan_usage_order l test.
Proof.
  intros Hwf Ht Hold. pose proof Hwf as (Hl & Hu & Hs & Hp).
  destruct (add_entry_prefix l e Hwf)
    as (Hline & Hpre & Hcs & Hidx & Hnotin & Hlt).
  pose proof (wf_add_entry l e Hwf) as (_ & Hu' & Hs' & _).
  rewrite !scan_usage_order_as_filter; [lia..|]. rewrite Hpre Hline.
  set (idx := if current_size l <? 16 then current_size l
              else usage_order l !!! 15) in *.
  set (kept := if current_size l <? 16 then current_size l else 15) in *.
  cbn [List.filter]. rewrite list_lookup_total_insert_eq; [lia|]. rewrite Ht.
  rewrite (List.filter_ext_in _ (λ s, test (line l !!! s))).
  { intros s Hin. apply list_elem_of_In in Hin.
    rewrite list_lookup_total_insert_ne; [|done]. by intros ->. }
  unfold kept. destruct (Nat.ltb_spec (current_size l) 16) as [|Hge]; [done|].
  assert (current_size l = 16) as Hc by lia. rewrite Hc.
  assert (usage_order l !! 15 = Some (usage_order l !!! 15)) as Hv
    by (apply list_lookup_lookup_total_lt; lia).
  rewrite (take_S_r _ 15 _ Hv) List.filter_app. cbn [List.filter].
  by rewrite (Hold Hc) app_nil_r.
Qed.

(** ** Insertion and lookup *)

(** X3.  Right after [add_entry], both searches find the inserted record
    under its own keys: it sits in an occupied slot, at the front of the
    recency order. *)
Theorem inserted_record_is_found (l : Bingo_Table_Line)
    (e : Bingo_History_Table) (n : nat) :
  wf_line l → n ≠ 0 →
  let l' := add_entry l e in
  let idx := usage_order l' !!! 0 in
  idx < current_size l' ∧ line l' !!! idx = e ∧
  pref_bingo_find_event_to_fetch_addr n l' (pc_plus_address e) = Some idx ∧
  pref_bingo_find_event_to_fetch n l' (pc_plus_offset e) = Some idx.
Proof.
  intros Hwf Hn l' idx.
  destruct (scan_add_entry_front l e
              (λ r, (pc_plus_address r =? pc_plus_address e)%Z) Hwf)
    as (Ha & Hlt & He); [apply Z.eqb_refl|].
  destruct (scan_add_entry_front l e
              (λ r, (pc_plus_offset r =? pc_plus_offset e)%Z) Hwf)
    as (Ho & _ & _); [apply Z.eqb_refl|].
  unfold pref_bingo_find_event_to_fetch_addr, pref_bingo_find_event_to_fetch.
  destruct (Nat.eqb_spec n 0); [done|]. by repeat split.
Qed.

(** X4.  An insertion does not disturb the exact search for any key
    other than the inserted one and the one of the record it overwrites
    (no record is overwritten while the line has free slots). *)
Theorem insertion_keeps_other_lookups (l : Bingo_Table_Line)
    (e : Bingo_History_Table) (n : nat) (a : Z) :
  wf_line l → pc_plus_address e ≠ a →
  (current_size l = 16 →
   pc_plus_address (line l !!! (usage_order l !!! 15)) ≠ a) →
  pref_bingo_find_event_to_fetch_addr n (add_entry l e) a
  = pref_bingo_find_event_to_fetch_addr n l a.
Proof.
  intros Hwf He Hold. unfold pref_bingo_find_event_to_fetch_addr.
  destruct (n =? 0); [done|].
  apply scan_add_entry_other; [done|by apply Z.eqb_neq|].
  intros Hc. apply Z.eqb_neq. by apply Hold.
Qed.


(** ** Promotion *)

Lemma filter_out_absent (f : nat) (l : list nat) :
  f ∉ l → List.filter (λ s, negb (s =? f)) l = l.
Proof.
  induction l as [|x l IH]; [done|]. intros Hn.
  apply not_elem_of_cons in Hn as [Hne Hn]. cbn [List.filter].
  destruct (Nat.eqb_spec x f); [done|]. cbn. by rewrite IH.
Qed.

Lemma filter_out_middle (f : nat) (l1 l2 : list nat) :
  NoDup (l1 ++ f :: l2) →
  List.filter (λ s, negb (s =? f)) (l1 ++ f :: l2) = l1 ++ l2.
Proof.
  intros Hnd. apply NoDup_app in Hnd as (_ & Hdis & Hnd2).
  apply NoDup_cons in Hnd2 as [Hf2 _].
  rewrite List.filter_app. cbn [List.filter]. rewrite Nat.eqb_refl. cbn.
  rewrite !filter_out_absent //.
  intros Hin. apply (Hdis _ Hin). by left.
Qed.

(** The promotion in closed form: the lowest occupied slot [f] whose
    record carries the key moves to the front of the recency prefix. *)
Lemma mark_used_by_address_found l a f :
  wf_line l →
  for_first (λ i, (pc_plus_address (line l !!! i) =? a)%Z)
            0 (current_size l) = Some f →
  ∃ i, i < current_size l ∧ usage_order l !! i = Some f ∧
       mark_used_by_address l a
       = mkLine (line l)
                (f :: take i (usage_order l) ++ drop (S i) (usage_order l))
                (current_size l).
Proof.
  intros Hwf Hf. pose proof Hwf as (Hl & Hu & Hs & Hp).
  unfold mark_used_by_address. rewrite Hf.
  pose proof (for_first_Some _ _ _ _ Hf) as (Hflt & _ & _).
  destruct (usage_order_complete l f Hwf) as (i0 & Hi0 & Hi0f); [lia|].
  destruct (for_first (λ i, usage_order l !!! i =? f) 0 (current_size l))
    as [i|] eqn:Hi.
  - apply for_first_Some in Hi as (Hr & Hc & _). apply Nat.eqb_eq in Hc.
    exists i. repeat split; [lia| |].
    + rewrite -Hc. apply list_lookup_lookup_total_lt. lia.
    + f_equal. apply shift_right_front. lia.
  - pose proof (for_first_None _ _ _ Hi i0) as Hno.
    cbn in Hno. rewrite Hi0f Nat.eqb_refl in Hno. discriminate Hno. lia.
Qed.

(** X5.  [mark_used_by_address] never touches the records or the size.
    When an occupied slot carries the key, the lowest such slot becomes the
    front of the recency order and the other slots keep their relative
    order; when none does, the line is unchanged. *)
Theorem promotion_moves_to_front (l : Bingo_Table_Line) (a : Z) :
  wf_line l →
  let l' := mark_used_by_address l a in
  line l' = line l ∧ current_size l' = current_size l ∧
  match for_first (λ i, (pc_plus_address (line l !!! i) =? a)%Z)
                  0 (current_size l) with
  | Some f =>
      take (current_size l) (usage_order l')
      = f :: List.filter (λ s, negb (s =? f))
                         (take (current_size l) (usage_order l))
  | None => l' = l
  end.
Proof.
  intros Hwf l'. pose proof Hwf as (Hl & Hu & Hs & Hp).
  destruct (mark_used_by_address_slots l a) as [Hline Hsize].
  split; [done|]. split; [done|].
  destruct (for_first _ 0 (current_size l)) as [f|] eqn:Hf.
  - destruct (mark_used_by_address_found l a f Hwf Hf)
      as (i & Hi & Hif & Heq).
    unfold l'. rewrite Heq. cbn [usage_order].
    assert (take (current_size l) (usage_order l)
            = take i (usage_order l)
              ++ f :: take (current_size l - S i)
                           (drop (S i) (usage_order l))) as Hsplit.
    { rewrite -{1}(take_drop_middle _ _ _ Hif).
      rewrite take_app_ge; [rewrite length_take; lia|].
      rewrite length_take.
      replace (current_size l - i `min` length (usage_order l))
        with (S (current_size l - S i)) by lia.
      done. }
    rewrite Hsplit filter_out_middle.
    { rewrite -Hsplit Hp. apply NoDup_seq. }
    replace (current_size l) with (S (current_size l - 1)) at 1 by lia.
    cbn [take]. rewrite take_app_ge; [rewrite length_take; lia|].
    rewrite length_take.
    by replace (current_size l - 1 - i `min` length (usage_order l))
      with (current_size l - S i) by lia.
  - unfold l', mark_used_by_address. by rewrite Hf.
Qed.

(** X6.  Promoting twice by the same key is the same as promoting
    once. *)
Theorem promotion_idempotent (l : Bingo_Table_Line) (a : Z) :
  wf_line l →
  mark_used_by_address (mark_used_by_address l a) a
  = mark_used_by_address l a.
Proof.
  intros Hwf.
  destruct (for_first (λ i, (pc_plus_address (line l !!! i) =? a)%Z)
                      0 (current_size l)) as [f|] eqn:Hf.
  - destruct (mark_used_by_address_found l a f Hwf Hf)
      as (i & Hi & Hif & Heq).
    rewrite Heq. unfold mark_used_by_address at 1.
    cbn [line usage_order current_size]. rewrite Hf.
    destruct (current_size l) as [|n] eqn:Hc; [lia|].
    cbn [for_first]. rewrite Nat.eqb_refl. done.
  - assert (mark_used_by_address l a = l) as ->; [|].
    { unfold mark_used_by_address. by rewrite Hf. }
    unfold mark_used_by_address. by rewrite Hf.
Qed.

(** X7.  The record just promoted survives the next insertion: that
    insertion writes another slot, and the exact search for the key still
    succeeds. *)
Theorem promoted_survives_insertion (l : Bingo_Table_Line) (a : Z)
    (e : Bingo_History_Table) (n f : nat) :
  wf_line l → n ≠ 0 →
  for_first (λ i, (pc_plus_address (line l !!! i) =? a)%Z)
            0 (current_size l) = Some f →
  let l' := add_entry (mark_used_by_address l a) e in
  f < current_size l' ∧ line l' !!! f = line l !!! f ∧
  is_Some (pref_bingo_find_event_to_fetch_addr n l' a).
Proof.
  intros Hwf Hn Hf l'.
  pose proof (for_first_Some _ _ _ _ Hf) as (Hflt & Hfa & _).
  destruct (mark_used_by_address_found l a f Hwf Hf)
    as (i & Hi & Hif & Heq).
  pose proof (wf_mark_used_by_address l a Hwf) as Hwf1.
  destruct (add_entry_prefix _ e Hwf1)
    as (Hline & Hpre & Hcs & Hidx & Hnotin & _).
  fold l' in Hline, Hpre, Hcs.
  destruct (mark_used_by_address_slots l a) as [Hl1 Hc1].
  rewrite Hc1 in Hline, Hpre, Hcs, Hnotin.
  pose proof Hwf as (Hl & Hu & Hs & Hp).
  set (idx := if current_size l <? 16 then current_size l
              else usage_order (mark_used_by_address l a) !!! 15) in *.
  set (kept := if current_size l <? 16 then current_size l else 15) in *.
  assert (f ∈ take kept (usage_order (mark_used_by_address l a))) as Hin.
  { apply (list_elem_of_lookup_2 _ 0). rewrite lookup_take_lt.
    { unfold kept. destruct (current_size l <? 16); lia. }
    by rewrite Heq. }
  assert (idx ≠ f) as Hne by (by intros ->).
  assert (f < current_size l') as Hlt.
  { rewrite Hcs. unfold kept.
    destruct (Nat.ltb_spec (current_size l) 16); lia. }
  assert (line l' !!! f = line l !!! f) as Hsame.
  { rewrite Hline Hl1. by rewrite list_lookup_total_insert_ne. }
  split; [done|]. split; [done|].
  unfold pref_bingo_find_event_to_fetch_addr.
  destruct (Nat.eqb_spec n 0); [done|].
  destruct (scan_usage_order l' _) as [s|] eqn:Hscan; [by eexists|].
  pose proof (wf_add_entry _ e Hwf1) as Hwf'.
  pose proof (proj1 (scan_usage_order_None _ _ Hwf') Hscan f Hlt) as Hno.
  cbn in Hno. rewrite Hsame in Hno. cbn in Hfa. congruence.
Qed.


(** ** Sequences of insertions *)

Lemma apply_ops_app ops1 ops2 l :
  apply_ops (ops1 ++ ops2) l = apply_ops ops2 (apply_ops ops1 l).
Proof. unfold apply_ops. apply foldl_app. Qed.

Lemma current_size_apply_ops ops l :
  current_size l ≤ 16 →
  current_size (apply_ops ops l) = (current_size l + count_adds ops) `min` 16.
Proof.
  revert l. induction ops as [|op ops IH]; intros l Hs.
  - cbn. lia.
  - change (apply_ops (op :: ops) l) with (apply_ops ops (apply_op l op)).
    destruct op as [e|a]; cbn [apply_op].
    + assert (current_size (add_entry l e)
              = if current_size l <? 16 then S (current_size l)
                else current_size l) as Hc.
      { unfold add_entry. by destruct (current_size l <? 16). }
      rewrite IH; rewrite Hc; unfold count_adds; cbn [List.filter length];
        destruct (Nat.ltb_spec (current_size l) 16); lia.
    + destruct (mark_used_by_address_slots l a) as [_ Hc].
      rewrite IH; rewrite Hc; [done|]. unfold count_adds. cbn [List.filter]. done.
Qed.

(** X8.  Whatever promotions are interleaved, the number of occupied
    slots of a line built from the zero-initialised one is the number of
    insertions, capped at 16. *)
Theorem occupancy_counts_insertions (ops : list bucket_op) :
  current_size (apply_ops ops zero_line) = count_adds ops `min` 16.
Proof. rewrite current_size_apply_ops; [cbn; lia|done]. Qed.

(** X9.  The first insertions (up to 16) fill the slots 0, 1, 2, ... in
    order of arrival, and the recency order lists them newest first. *)
Theorem insertions_fill_in_order (es : list Bingo_History_Table) :
  length es ≤ 16 →
  apply_ops (Add <$> es) zero_line
  = mkLine (es ++ replicate (16 - length es) zero_hist)
           (rev (seq 0 (length es)) ++ replicate (16 - length es) 0)
           (length es).
Proof.
  induction es as [|e es IH] using rev_ind; intros Hlen; [done|].
  rewrite length_app in Hlen. cbn [length] in Hlen.
  rewrite fmap_app apply_ops_app IH; [lia|].
  cbn [fmap list_fmap apply_ops foldl apply_op].
  rewrite add_entry_free; cbn [line usage_order current_size]; [lia| |].
  { rewrite length_app length_rev length_seq length_replicate. lia. }
  rewrite length_app. cbn [length].
  replace (length es + 1) with (S (length es)) by lia.
  replace (16 - length es) with (S (16 - S (length es))) by lia.
  cbn [replicate]. f_equal.
  - rewrite insert_app_r_alt; [lia|]. rewrite Nat.sub_diag. cbn.
    by rewrite -app_assoc.
  - rewrite seq_S rev_app_distr. cbn [rev Nat.add app]. f_equal.
    assert (length (rev (seq 0 (length es))) = length es) as Hr
      by (by rewrite length_rev length_seq).
    rewrite take_app_length'; [done|].
    rewrite drop_app_ge; [lia|]. rewrite Hr.
    replace (S (length es) - length es) with 1 by lia. done.
Qed.


(** ** What the stores hold in reachable states *)

Lemma add_entry_slots l e j :
  wf_line l → j < current_size (add_entry l e) →
  line (add_entry l e) !!! j = e
  ∨ (j < current_size l ∧ line (add_entry l e) !!! j = line l !!! j).
Proof.
  intros Hwf Hj. pose proof Hwf as (Hl & _).
  destruct (add_entry_prefix l e Hwf) as (Hline & _ & Hcs & Hidx & _ & _).
  rewrite Hline. rewrite Hcs in Hj.
  set (idx := if current_size l <? 16 then current_size l
              else usage_order l !!! 15) in *.
  destruct (decide (j = idx)) as [->|Hne].
  - left. apply list_lookup_total_insert_eq. lia.
  - right. rewrite list_lookup_total_insert_ne; [done|]. split; [|done].
    unfold idx in Hne.
    destruct (Nat.ltb_spec (current_size l) 16); lia.
Qed.

Lemma aux_ok_set_accessed P e b : aux_ok P e → aux_ok P (set_accessed e b).
Proof.
  intros (Hp & Hlen & Hflag). repeat split; [done|..].
  - cbn. by rewrite length_insert.
  - by apply flag_set_accessed_mono.
Qed.

Lemma update_aux_ok aux a c :
  (∀ P e, aux !! P = Some e → aux_ok P e) →
  ∀ P e, update_aux aux (bingo_get_page_number a) (bingo_get_block_index a)
           a c !! P = Some e → aux_ok P e.
Proof.
  intros Hok P e. unfold update_aux, hash_table_access,
    hash_table_access_replace.
  destruct (aux !! bingo_get_page_number a) as [e0|] eqn:He0.
  - destruct (decide (bingo_get_page_number a = P)) as [<-|Hne].
    + rewrite lookup_insert_eq. intros [= <-].
      by apply aux_ok_set_accessed, Hok.
    + rewrite lookup_insert_ne //. apply Hok.
  - destruct (decide (bingo_get_page_number a = P)) as [<-|Hne].
    + rewrite lookup_insert_eq. intros [= <-]. repeat split.
      * cbn. by rewrite length_insert.
      * cbn [trigger_addr set_accessed].
        apply flag_set_accessed; [cbn; apply block_index_lt|by right].
    + rewrite lookup_insert_ne //. apply Hok.
Qed.

Lemma step_state_ok st ev : state_ok st → state_ok (do_step st ev).1.
Proof.
  intros (Hwf & Haux & Hhist).
  split; [by apply step_hist_wf|].
  destruct ev as [p a c g|p a c g|p a]; cbn [step fst].
  - split; [by apply update_aux_ok|done].
  - destruct (miss_cases LOG2_DCACHE_LINE_SIZE hwp_in_id st p a c g)
      as [[-> _]|(l & s & Hl & _ & ->)]; cbn [fst].
    + split; [by apply update_aux_ok|done].
    + split; [done|]. intros k l'. cbn [History_Table].
      destruct (decide (miss_signature a c = k)) as [<-|Hne].
      * rewrite lookup_insert_eq. intros [= <-].
        destruct (mark_used_by_address_slots l (miss_exact a c))
          as [-> ->].
        by apply Hhist.
      * rewrite lookup_insert_ne //. apply Hhist.
  - unfold pref_bingo_ul1_cache_evict, hash_table_access,
      hash_table_access_replace, hash_table_access_delete.
    destruct (Aux_Storage st !! bingo_get_page_number a) as [e|] eqn:He;
      [|done].
    pose proof (Haux _ _ He) as Hok.
    split; cbn [Aux_Storage History_Table].
    + intros P e' He'. apply lookup_delete_Some in He' as [_ He'].
      by apply Haux.
    + intros k l'. set (key := addr_add (pc e) (Z.shiftr a 6)).
      destruct (decide (key = k)) as [<-|Hne];
        [|rewrite lookup_insert_ne //; apply Hhist].
      rewrite lookup_insert_eq. intros [= <-].
      set (l0 := match History_Table st !! key with
                 | Some l => l | None => zero_line end).
      set (r := mkHist (addr_add (pc e) a) key e).
      assert (wf_line l0 ∧
              ∀ j, j < current_size l0 → record_ok key (line l0 !!! j))
        as [Hwf0 Hrec0].
      { unfold l0. destruct (History_Table st !! key) as [l|] eqn:Hl.
        - split; [by eapply Hwf|]. by apply Hhist.
        - split; [apply wf_zero_line|]. cbn. lia. }
      split.
      * destruct (add_entry_prefix l0 r Hwf0) as (_ & _ & -> & _). lia.
      * intros j Hj. destruct (add_entry_slots l0 r j Hwf0 Hj)
          as [->|[Hlt ->]]; [|by apply Hrec0].
        destruct Hok as (Hp & Hlen & Hflag).
        repeat split; [|done..]. exists a. by rewrite Hp.
Qed.

Lemma run_state_ok evs st : state_ok st → state_ok (do_run evs st).
Proof.
  revert st. induction evs as [|ev evs IH]; intros st Hok; [done|].
  cbn [run]. by apply IH, step_state_ok.
Qed.

Lemma init_state_ok : state_ok pref_bingo_init.
Proof.
  split; [apply init_hist_wf|].
  split; intros k x; cbn; by rewrite lookup_empty.
Qed.

(** X10.  In every state the callbacks can reach, the live record stored
    for a page was triggered by an address of that page, and the flag of
    its trigger block is set (so its footprint is never empty). *)
Theorem live_record_trigger (evs : list Event) (P : Z) (e : Aux_Entry) :
  Aux_Storage (do_run evs pref_bingo_init) !! P = Some e →
  bingo_get_page_number (trigger_addr e) = P ∧
  flag (footprint e) (bingo_get_block_index (trigger_addr e)) = true.
Proof.
  intros He.
  destruct (run_state_ok evs _ init_state_ok) as (_ & Haux & _).
  by destruct (Haux _ _ He) as (Hp & _ & Hflag).
Qed.

(** X11.  In every reachable state a history line is never empty, and
    every occupied record of the line stored under signature [k] carries
    [pc_plus_offset = k]; its two keys are the trigger pc plus one line
    address of the trigger's page, and plus that address's line index. *)
Theorem history_line_records (evs : list Event) (k : Z)
    (l : Bingo_Table_Line) :
  History_Table (do_run evs pref_bingo_init) !! k = Some l →
  1 ≤ current_size l ≤ 16 ∧
  ∀ j, j < current_size l →
    let r := line l !!! j in
    pc_plus_offset r = k ∧
    ∃ X, bingo_get_page_number X
           = bingo_get_page_number (trigger_addr (entry r)) ∧
         pc_plus_address r = addr_add (pc (entry r)) X ∧
         pc_plus_offset r = addr_add (pc (entry r)) (Z.shiftr X 6).
Proof.
  intros Hl.
  destruct (run_state_ok evs _ init_state_ok) as (Hwf & _ & Hhist).
  destruct (Hhist _ _ Hl) as [Hne Hrec].
  destruct (Hwf _ _ Hl) as (_ & _ & Hs & _).
  split; [lia|]. intros j Hj r.
  destruct (Hrec j Hj) as (Hpo & (X & Hpa & Hk & HX) & _).
  split; [done|]. exists X. fold r in Hpa, Hk, HX, Hpo.
  by rewrite Hpo.
Qed.


(** ** Lookup in reachable states *)

Lemma select_entry_in_ok_state st l a c :
  state_ok st → History_Table st !! miss_signature a c = Some l →
  ∃ s, select_entry (count (History_Table st)) l
         (miss_exact a c) (miss_signature a c) = Some s ∧
       s < current_size l ∧
       record_ok (miss_signature a c) (line l !!! s) ∧
       ((∀ j, j < current_size l →
              pc_plus_address (line l !!! j) ≠ miss_exact a c) →
        s = usage_order l !!! 0).
Proof.
  intros (Hwf & _ & Hhist) Hl.
  pose proof (Hwf _ _ Hl) as Hwfl. pose proof Hwfl as (_ & Hu & Hs & _).
  destruct (Hhist _ _ Hl) as [Hne Hrec].
  pose proof (lookup_count_ne_0 _ _ _ Hl) as Hc.
  unfold select_entry, pref_bingo_find_event_to_fetch_addr,
    pref_bingo_find_event_to_fetch.
  destruct (Nat.eqb_spec (count (History_Table st)) 0) as [|_]; [done|].
  destruct (scan_usage_order l _) as [s|] eqn:Hscan.
  - apply (scan_usage_order_Some _ _ _ Hwfl) in Hscan as (Hlt & Ht & _).
    exists s. split; [done|]. split; [done|]. split; [by apply Hrec|].
    intros Hno. cbn in Ht. specialize (Hno s Hlt). lia.
  - pose proof (usage_order_lt l 0 Hwfl) as H0.
    assert (scan_usage_order l
              (λ r, (pc_plus_offset r =? miss_signature a c)%Z)
            = Some (usage_order l !!! 0)) as ->.
    { unfold scan_usage_order.
      destruct (current_size l) as [|n] eqn:Hcs; [lia|]. cbn [for_first].
      destruct (Hrec (usage_order l !!! 0)) as (-> & _); [lia|].
      by rewrite Z.eqb_refl. }
    exists (usage_order l !!! 0).
    split; [done|]. split; [lia|]. split; [apply Hrec; lia|done].
Qed.

Lemma prefetch_nonempty (r : Bingo_History_Table) (p page : Z) (b : nat) :
  b < 64 → flag (footprint (entry r)) b = true → prefetch r p page ≠ [].
Proof.
  intros Hb Hflag. unfold pref_bingo_prefetch. rewrite prefetch_loop_spec.
  assert (In b (List.filter (λ j, flag (footprint (entry r)) j) (seq 0 64)))
    as Hin.
  { apply filter_In. split; [apply in_seq; lia|done]. }
  destruct (List.filter _ (seq 0 64)); [done|]. done.
Qed.

(** X12.  In every reachable state, a miss that finds a history line for
    its signature always selects one of its records (the learning branch
    behind a found line is never taken); the record was committed under
    that signature, and the miss emits at least one prefetch request. *)
Theorem history_line_always_selects (evs : list Event) (p a c g : Z)
    (l : Bingo_Table_Line) :
  let st := do_run evs pref_bingo_init in
  History_Table st !! miss_signature a c = Some l →
  ∃ s, select_entry (count (History_Table st)) l
         (miss_exact a c) (miss_signature a c) = Some s ∧
       s < current_size l ∧
       pc_plus_offset (line l !!! s) = miss_signature a c ∧
       (miss st p a c g).2
         = prefetch (line l !!! s) p (bingo_get_page_number a) ∧
       (miss st p a c g).2 ≠ [].
Proof.
  intros st Hl.
  pose proof (run_state_ok evs _ init_state_ok) as Hok. fold st in Hok.
  destruct (select_entry_in_ok_state st l a c Hok Hl)
    as (s & Hsel & Hlt & (Hpo & _ & _ & _ & Hflag) & _).
  exists s. split; [done|]. split; [done|]. split; [done|].
  assert ((miss st p a c g).2
          = prefetch (line l !!! s) p (bingo_get_page_number a)) as Hreq.
  { destruct (miss_cases LOG2_DCACHE_LINE_SIZE hwp_in_id st p a c g)
      as [[_ Hnone]|(l' & s' & Hl' & Hs' & ->)].
    - rewrite (Hnone _ Hl) in Hsel. done.
    - rewrite Hl in Hl'. injection Hl' as <-. rewrite Hsel in Hs'.
      by injection Hs' as <-. }
  split; [done|]. rewrite Hreq.
  eapply prefetch_nonempty; [apply block_index_lt|done].
Qed.

(** X13.  In every reachable state, a miss emits prefetch requests
    exactly when the history table holds a line for its signature. *)
Theorem miss_emits_iff_history_line (evs : list Event) (p a c g : Z) :
  let st := do_run evs pref_bingo_init in
  (miss st p a c g).2 ≠ []
  ↔ is_Some (History_Table st !! miss_signature a c).
Proof.
  intros st.
  pose proof (run_state_ok evs _ init_state_ok) as Hok. fold st in Hok.
  split.
  - intros Hne.
    destruct (miss_cases LOG2_DCACHE_LINE_SIZE hwp_in_id st p a c g)
      as [[Heq _]|(l & s & Hl & _ & _)]; [|by eexists].
    by rewrite Heq in Hne.
  - intros [l Hl].
    destruct (select_entry_in_ok_state st l a c Hok Hl)
      as (s & Hsel & Hlt & (_ & _ & _ & _ & Hflag) & _).
    destruct (miss_cases LOG2_DCACHE_LINE_SIZE hwp_in_id st p a c g)
      as [[_ Hnone]|(l' & s' & Hl' & Hs' & ->)].
    + rewrite (Hnone _ Hl) in Hsel. done.
    + rewrite Hl in Hl'. injection Hl' as <-. rewrite Hsel in Hs'.
      injection Hs' as <-. cbn [snd].
      eapply prefetch_nonempty; [apply block_index_lt|done].
Qed.

(** X14.  In every reachable state, when no record of the found line
    carries the query's [pc_plus_address], the fall-back selects the most
    recently used record of the line. *)
Theorem fallback_selects_most_recent (evs : list Event) (a c : Z)
    (l : Bingo_Table_Line) :
  let st := do_run evs pref_bingo_init in
  History_Table st !! miss_signature a c = Some l →
  (∀ j, j < current_size l →
        pc_plus_address (line l !!! j) ≠ miss_exact a c) →
  select_entry (count (History_Table st)) l
    (miss_exact a c) (miss_signature a c) = Some (usage_order l !!! 0).
Proof.
  intros st Hl Hno.
  pose proof (run_state_ok evs _ init_state_ok) as Hok. fold st in Hok.
  destruct (select_entry_in_ok_state st l a c Hok Hl)
    as (s & Hsel & _ & _ & Hfront).
  by rewrite -(Hfront Hno).
Qed.


(** ** Commit, then predict *)

(** X15.  Learning and prediction meet when the keys do: in a reachable
    state with a live record [e] for the page of [X], after the eviction
    of [X] a miss whose signature equals the committed one prefetches the
    footprint of [e] on the page of the miss, provided its
    [pc_plus_address] is the committed one or is carried by no older
    record of that line. *)
Theorem commit_then_predict (evs : list Event) (p X p' Y c g : Z)
    (e : Aux_Entry) :
  let st := do_run evs pref_bingo_init in
  let key := addr_add (pc e) (Z.shiftr X 6) in
  let committed := mkHist (addr_add (pc e) X) key e in
  let st1 := pref_bingo_ul1_cache_evict st p X in
  Aux_Storage st !! bingo_get_page_number X = Some e →
  miss_signature Y c = key →
  (miss_exact Y c = addr_add (pc e) X
   ∨ ∀ l j, History_Table st !! key = Some l → j < current_size l →
            pc_plus_address (line l !!! j) ≠ miss_exact Y c) →
  (miss st1 p' Y c g).2
  = prefetch committed p' (bingo_get_page_number Y).
Proof.
  intros st key committed st1 He Hkey Hexact.
  destruct (run_state_ok evs _ init_state_ok) as (Hwf & _ & _).
  fold st in Hwf.
  set (l0 := default zero_line (History_Table st !! key)).
  assert (wf_line l0) as Hwf0.
  { unfold l0. destruct (History_Table st !! key) as [l|] eqn:Hl;
      [by eapply Hwf|apply wf_zero_line]. }
  assert (History_Table st1 !! miss_signature Y c
          = Some (add_entry l0 committed)) as Hl1.
  { unfold st1, pref_bingo_ul1_cache_evict, hash_table_access,
      hash_table_access_replace. rewrite He. fold key. fold committed.
    cbn [History_Table]. rewrite Hkey lookup_insert_eq. unfold l0.
    by destruct (History_Table st !! key). }
  set (l1 := add_entry l0 committed) in *.
  pose proof (wf_add_entry l0 committed Hwf0) as Hwf1. fold l1 in Hwf1.
  pose proof (lookup_count_ne_0 _ _ _ Hl1) as Hc.
  assert (select_entry (count (History_Table st1)) l1
            (miss_exact Y c) (miss_signature Y c)
          = Some (usage_order l1 !!! 0)
          ∧ line l1 !!! (usage_order l1 !!! 0) = committed) as [Hsel Hrec].
  { destruct (scan_add_entry_front l0 committed
                (λ r, (pc_plus_offset r =? miss_signature Y c)%Z) Hwf0)
      as (Ho & _ & Hfront).
    { cbn. rewrite Hkey. apply Z.eqb_refl. }
    fold l1 in Ho, Hfront. split; [|done].
    unfold select_entry, pref_bingo_find_event_to_fetch_addr,
      pref_bingo_find_event_to_fetch.
    destruct (Nat.eqb_spec (count (History_Table st1)) 0) as [|_]; [done|].
    destruct (decide (miss_exact Y c = addr_add (pc e) X)) as [Heq|Hne].
    - destruct (scan_add_entry_front l0 committed
                  (λ r, (pc_plus_address r =? miss_exact Y c)%Z) Hwf0)
        as (Ha & _ & _).
      { cbn. rewrite Heq. apply Z.eqb_refl. }
      fold l1 in Ha. by rewrite Ha.
    - destruct Hexact as [Heq|Hold]; [done|].
      rewrite (proj2 (scan_usage_order_None l1 _ Hwf1)); [|by rewrite Ho].
      intros j Hj. apply Z.eqb_neq.
      destruct (add_entry_slots l0 committed j Hwf0 Hj) as [Hj'|[Hlt Hj']];
        fold l1 in Hj'; rewrite Hj'.
      + cbn. by intros Heq.
      + unfold l0 in Hlt |- *.
        destruct (History_Table st !! key) as [l|] eqn:Hl;
          [by eapply Hold|cbn in Hlt; lia]. }
  destruct (miss_cases LOG2_DCACHE_LINE_SIZE hwp_in_id st1 p' Y c g)
    as [[_ Hnone]|(l' & s' & Hl' & Hs' & ->)].
  - rewrite (Hnone _ Hl1) in Hsel. done.
  - rewrite Hl1 in Hl'. injection Hl' as <-. rewrite Hsel in Hs'.
    injection Hs' as <-. cbn [snd]. by rewrite Hrec.
Qed.

(** ** What the callbacks leave alone *)

Lemma step_history_persists st ev k l :
  History_Table st !! k = Some l →
  ∃ l', History_Table (do_step st ev).1 !! k = Some l' ∧
        current_size l ≤ current_size l'.
Proof.
  intros Hl. destruct ev as [p a c g|p a c g|p a]; cbn [step fst].
  - by exists l.
  - destruct (miss_cases LOG2_DCACHE_LINE_SIZE hwp_in_id st p a c g)
      as [[-> _]|(l0 & s & Hl0 & _ & ->)]; [by exists l|].
    cbn [fst History_Table].
    destruct (decide (miss_signature a c = k)) as [<-|Hne].
    + rewrite lookup_insert_eq. eexists. split; [done|].
      destruct (mark_used_by_address_slots l0 (miss_exact a c)) as [_ ->].
      rewrite Hl in Hl0. by injection Hl0 as <-.
    + rewrite lookup_insert_ne //. by exists l.
  - unfold pref_bingo_ul1_cache_evict, hash_table_access,
      hash_table_access_replace.
    destruct (Aux_Storage st !! _) as [e|]; [|by exists l].
    cbn [History_Table]. set (key := addr_add (pc e) (Z.shiftr a 6)).
    destruct (decide (key = k)) as [->|Hne];
      [|rewrite lookup_insert_ne //; by exists l].
    rewrite lookup_insert_eq Hl. eexists. split; [done|].
    unfold add_entry. destruct (current_size l <? 16); cbn; lia.
Qed.

(** X16.  The history table only grows: along any run a line that
    exists is never removed and never loses occupied slots. *)
Theorem history_lines_persist (evs : list Event) (st : Bingo_State)
    (k : Z) (l : Bingo_Table_Line) :
  History_Table st !! k = Some l →
  ∃ l', History_Table (do_run evs st) !! k = Some l' ∧
        current_size l ≤ current_size l'.
Proof.
  revert st l. induction evs as [|ev evs IH]; intros st l Hl.
  - exists l. by split.
  - cbn [run]. destruct (step_history_persists st ev k l Hl) as (l1 & Hl1 & Hle).
    destruct (IH _ _ Hl1) as (l' & Hl' & Hle').
    exists l'. split; [done|lia].
Qed.

(** X17.  Hits and misses never alter a committed record: a hit leaves
    the history table as it is, and a miss leaves every line's slots and
    size as they are (it can only reorder recency). *)
Theorem hit_miss_keep_records (st : Bingo_State) (p a c g k : Z) :
  History_Table (pref_bingo_ul1_hit st p a c g) = History_Table st ∧
  (λ l, (line l, current_size l)) <$> History_Table (miss st p a c g).1 !! k
  = (λ l, (line l, current_size l)) <$> History_Table st !! k.
Proof.
  split; [done|].
  destruct (miss_cases LOG2_DCACHE_LINE_SIZE hwp_in_id st p a c g)
    as [[-> _]|(l0 & s & Hl0 & _ & ->)]; [done|].
  cbn [fst History_Table].
  destruct (decide (miss_signature a c = k)) as [<-|Hne].
  - rewrite lookup_insert_eq Hl0. cbn.
    by destruct (mark_used_by_address_slots l0 (miss_exact a c))
      as [-> ->].
  - by rewrite lookup_insert_ne.
Qed.

(** X18.  A second hit on the same line changes nothing, whichever
    instruction issues it: the trigger fields of the live record stay those
    of the first access. *)
Theorem hit_idempotent (st : Bingo_State) (p a c g p' c' g' : Z) :
  pref_bingo_ul1_hit (pref_bingo_ul1_hit st p a c g) p' a c' g'
  = pref_bingo_ul1_hit st p a c g.
Proof.
  unfold pref_bingo_ul1_hit. cbn [History_Table Aux_Storage]. f_equal.
  unfold update_aux, hash_table_access, hash_table_access_replace.
  destruct (Aux_Storage st !! bingo_get_page_number a) as [e|];
    rewrite lookup_insert_eq insert_insert_eq; f_equal;
    unfold set_accessed; cbn; by rewrite list_insert_insert_eq.
Qed.

(** X19.  Callbacks about other pages never touch the live record of a
    page: it stays exactly as it is, present or absent. *)
Theorem other_pages_leave_live_record (evs : list Event)
    (st : Bingo_State) (P : Z) :
  Forall (λ ev, event_page ev ≠ P) evs →
  Aux_Storage (do_run evs st) !! P = Aux_Storage st !! P.
Proof.
  intros Hevs. revert st.
  induction Hevs as [|ev evs Hev Hevs IH]; intros st; [done|].
  cbn [run]. rewrite IH. by apply step_aux_other.
Qed.


(** ** Insertions without promotions *)

Lemma count_adds_Add (es : list Bingo_History_Table) :
  count_adds (Add <$> es) = length es.
Proof.
  unfold count_adds. induction es as [|e es IH]; [done|].
  cbn. by rewrite IH.
Qed.

(** X20.  Without promotions a line is a ring of the last 16 insertions:
    insertion number [m] (counting from 0) goes to slot [m mod 16], the
    16 most recent records are all present, and the recency order lists
    their slots newest first. *)
Theorem insertions_form_ring (es : list Bingo_History_Table) :
  let n := length es in
  let l := apply_ops (Add <$> es) zero_line in
  take (current_size l) (usage_order l)
    = (λ j, (n - 1 - j) mod 16) <$> seq 0 (n `min` 16) ∧
  ∀ m, m < n → n ≤ m + 16 → line l !!! (m mod 16) = es !!! m.
Proof.
  induction es as [|e es IH] using rev_ind; [split; [done|cbn; lia]|].
  cbn zeta in *. destruct IH as [IHu IHl].
  set (n := length es) in *.
  set (l := apply_ops (Add <$> es) zero_line) in *.
  assert (wf_line l) as Hwf by apply wf_apply_ops, wf_zero_line.
  pose proof Hwf as (Hl & Hu & Hs & _).
  assert (current_size l = n `min` 16) as Hcs.
  { unfold l. rewrite current_size_apply_ops; [cbn; lia|].
    by rewrite count_adds_Add. }
  rewrite fmap_app apply_ops_app. fold l.
  change (apply_ops (Add <$> [e]) l) with (add_entry l e).
  rewrite length_app. cbn [length]. fold n.
  replace (n + 1) with (S n) by lia.
  destruct (add_entry_prefix l e Hwf) as (Hline & Hpre & Hcs' & Hidx & _ & _).
  set (idx := if current_size l <? 16 then current_size l
              else usage_order l !!! 15) in *.
  set (kept := if current_size l <? 16 then current_size l else 15) in *.
  pose proof (Nat.div_mod_eq n 16) as Hn1.
  pose proof (Nat.mod_upper_bound n 16 ltac:(lia)) as Hn2.
  assert (S n `min` 16 = S kept) as Hmin.
  { unfold kept. destruct (Nat.ltb_spec (current_size l) 16); lia. }
  assert (idx = n mod 16) as Hidxn.
  { unfold idx. destruct (Nat.ltb_spec (current_size l) 16) as [Hlt|Hge];
      [lia|].
    assert (usage_order l !! 15 = Some ((n - 1 - 15) mod 16)) as H15.
    { rewrite -(lookup_take_lt _ (current_size l)); [lia|].
      rewrite IHu list_lookup_fmap.
      rewrite lookup_seq_lt; [lia|]. done. }
    rewrite (list_lookup_total_correct _ _ _ H15).
    pose proof (Nat.div_mod_eq (n - 1 - 15) 16).
    pose proof (Nat.mod_upper_bound (n - 1 - 15) 16 ltac:(lia)). lia. }
  assert (take kept (usage_order l)
          = (λ j, (n - 1 - j) mod 16) <$> seq 0 kept) as Hkept.
  { unfold kept. destruct (Nat.ltb_spec (current_size l) 16) as [Hlt|Hge].
    - rewrite IHu. f_equal. f_equal. lia.
    - replace 15 with (15 `min` current_size l) at 1 by lia.
      rewrite -take_take IHu -fmap_take take_seq. f_equal. f_equal. lia. }
  split.
  - rewrite Hpre Hmin Hidxn Hkept. cbn [seq fmap list_fmap]. f_equal.
    + f_equal. lia.
    + rewrite -fmap_S_seq -list_fmap_compose.
      apply list_fmap_ext. intros i j _. unfold compose. cbn beta.
      f_equal. lia.
  - intros m Hm Hwin. rewrite Hline Hidxn.
    destruct (decide (m = n)) as [->|Hne].
    + rewrite list_lookup_total_insert_eq; [lia|].
      unfold n. by rewrite list_lookup_total_middle.
    + pose proof (Nat.div_mod_eq m 16).
      pose proof (Nat.mod_upper_bound m 16 ltac:(lia)).
      rewrite list_lookup_total_insert_ne; [lia|].
      rewrite lookup_total_app_l; [fold n; lia|]. apply IHl; lia.
Qed.


(** ** The keys of a miss *)

(** X21.  For a line-aligned 64-bit miss address the two keys the miss
    handler derives coincide; in general the signature is the exact key of
    the line's first byte. *)
Theorem aligned_miss_keys_coincide (a c : Z) :
  (0 ≤ a < 2 ^ 64)%Z →
  miss_signature a c = miss_exact (a - a mod 64) c ∧
  (a mod 64 = 0 → miss_signature a c = miss_exact a c)%Z.
Proof.
  intros Ha.
  assert (miss_signature a c = miss_exact (a - a mod 64) c) as Heq.
  { unfold miss_signature, miss_exact, addr_add, addr_shl, wrap64.
    rewrite Z.shiftr_div_pow2; [lia|]. rewrite Z.shiftl_mul_pow2; [lia|].
    change (2 ^ 6)%Z with 64%Z.
    change (2 ^ 64)%Z with 18446744073709551616%Z in *.
    rewrite (Z.mod_small (a / 64 * 64)); [Z.div_mod_to_equations; lia|].
    f_equal. Z.div_mod_to_equations. lia. }
  split; [done|]. intros H0. rewrite Heq. f_equal. lia.
Qed.

(** ** One commit per page epoch *)

(** C5.  In every reachable state in which page [P] has a live record,
    the first eviction of one of its lines inserts exactly one record into
    the history table: the line under the record's signature gets the
    record in one slot (the next free one, or the least recently used one
    when the line is full), as the most recently used and found by the
    exact search, while every other slot of that line, every other line
    and the live records of the other pages stay as they were; the live
    record of [P] is deleted.  As long as no hit or miss touches [P],
    every later eviction of a line of [P] changes neither table, whatever
    callbacks for other pages come in between. *)
Theorem single_commit_per_page_epoch (evs : list Event) (p X : Z)
    (e : Aux_Entry) (rest : list Event) :
  let st := do_run evs pref_bingo_init in
  let P := bingo_get_page_number X in
  Aux_Storage st !! P = Some e →
  Forall (λ ev, accesses P ev = false) rest →
  let key := addr_add (pc e) (Z.shiftr X 6) in
  let record := mkHist (addr_add (pc e) X) key e in
  let before := default zero_line (History_Table st !! key) in
  let slot := if current_size before <? 16 then current_size before
              else usage_order before !!! 15 in
  let st1 := (do_step st (Evict p X)).1 in
  (∃ after,
     History_Table st1 !! key = Some after ∧
     slot < 16 ∧
     line after = <[slot := record]> (line before) ∧
     line after !!! slot = record ∧
     (∀ j, j ≠ slot → line after !!! j = line before !!! j) ∧
     current_size after
       = (if current_size before <? 16 then S (current_size before)
          else 16) ∧
     usage_order after !!! 0 = slot ∧
     pref_bingo_find_event_to_fetch_addr (count (History_Table st1)) after
       (pc_plus_address record) = Some slot) ∧
  (∀ k, k ≠ key → History_Table st1 !! k = History_Table st !! k) ∧
  Aux_Storage st1 !! P = None ∧
  (∀ Q, Q ≠ P → Aux_Storage st1 !! Q = Aux_Storage st !! Q) ∧
  (∀ p' X', bingo_get_page_number X' = P →
            do_step st1 (Evict p' X') = (st1, [])) ∧
  do_run rest st1
    = do_run (List.filter (λ ev, negb (evicts P ev)) rest) st1 ∧
  (∀ ps, Forall (λ pX, bingo_get_page_number pX.2 = P) ps →
         do_run (map (λ pX, Evict pX.1 pX.2) ps) st1 = st1).
Proof.
  intros st P He Hrest key record before slot st1.
  pose proof (run_hist_wf LOG2_DCACHE_LINE_SIZE hwp_in_id evs _ init_hist_wf)
    as Hwf. fold st in Hwf.
  assert (wf_line before) as Hwfb.
  { unfold before. destruct (History_Table st !! key) as [l|] eqn:Hl;
      [by eapply Hwf|apply wf_zero_line]. }
  assert (st1 = mkState
            (<[key := add_entry before record]> (History_Table st))
            (delete P (Aux_Storage st))) as Hst1.
  { unfold st1. cbn [step fst].
    unfold pref_bingo_ul1_cache_evict, hash_table_access,
      hash_table_access_replace, hash_table_access_delete.
    fold P. rewrite He. fold key. fold record. unfold before.
    by destruct (History_Table st !! key). }
  assert (Aux_Storage st1 !! P = None) as Hnone.
  { rewrite Hst1. cbn [Aux_Storage]. apply lookup_delete_eq. }
  assert (History_Table st1 !! key = Some (add_entry before record)) as Hl1.
  { rewrite Hst1. cbn [History_Table]. apply lookup_insert_eq. }
  split; [|split; [|split; [done|split; [|split; [|split]]]]].
  - exists (add_entry before record). split; [done|].
    destruct (add_entry_prefix before record Hwfb)
      as (Hline & _ & Hcs & Hslot & _ & _). fold slot in Hline, Hslot.
    destruct (scan_add_entry_front before record
                (λ r, (pc_plus_address r =? pc_plus_address record)%Z) Hwfb)
      as (Hscan & _ & Hfront); [apply Z.eqb_refl|].
    pose proof Hwfb as (Hlen & _).
    assert (line (add_entry before record) !!! slot = record) as Hrec.
    { rewrite Hline. apply list_lookup_total_insert_eq. lia. }
    assert (usage_order (add_entry before record) !!! 0 = slot) as H0.
    { pose proof (wf_add_entry before record Hwfb) as (_ & Hu' & Hs' & _).
      destruct (add_entry_prefix before record Hwfb)
        as (_ & Hpre & Hcs2 & _). fold slot in Hpre.
      apply list_lookup_total_correct.
      rewrite -(lookup_take_lt _ (current_size (add_entry before record)));
        [lia|]. by rewrite Hpre. }
    split; [done|]. split; [done|]. split; [done|]. split.
    { intros j Hj. rewrite Hline. by rewrite list_lookup_total_insert_ne. }
    split.
    { rewrite Hcs. by destruct (Nat.ltb_spec (current_size before) 16). }
    split; [done|].
    unfold pref_bingo_find_event_to_fetch_addr.
    destruct (Nat.eqb_spec (count (History_Table st1)) 0) as [Hc|_].
    { by apply (lookup_count_ne_0 _ _ _ Hl1) in Hc. }
    by rewrite Hscan H0.
  - intros k Hk. rewrite Hst1. cbn [History_Table].
    by rewrite lookup_insert_ne.
  - intros Q HQ. rewrite Hst1. cbn [Aux_Storage].
    by rewrite lookup_delete_ne.
  - intros p' X' HX'. cbn [step]. rewrite evict_untracked; [|done].
    by rewrite HX'.
  - by apply run_skips_evictions.
  - intros ps Hps. induction ps as [|[p' X'] ps IH]; [done|].
    apply Forall_cons in Hps as [HX' Hps]. cbn [map run step fst].
    rewrite evict_untracked; [by rewrite HX'|]. by apply IH.
Qed.

End Coverage.

(** * Concrete runs of the further properties *)

Lemma address_decomposition_witness :
  (0 ≤ 70000 < 2 ^ 64)%Z ∧
  (bingo_get_page_base_from_number (bingo_get_page_number 70000)
   + 64 * Z.of_nat (bingo_get_block_index 70000) + 70000 mod 64
   = 70000)%Z.
Proof.
  assert (0 ≤ 70000 < 2 ^ 64)%Z as H by lia.
  split; [exact H|]. exact (proj1 (address_decomposition 70000 H)).
Defined.

Lemma prefetch_target_in_page_witness :
  (0 ≤ 17 < 2 ^ 52)%Z ∧ 5 < 64 ∧
  bingo_get_page_number
    (addr_add (bingo_get_page_base_from_number 17) (addr_shl 5 6)) = 17%Z ∧
  bingo_get_block_index
    (addr_add (bingo_get_page_base_from_number 17) (addr_shl 5 6)) = 5.
Proof.
  assert (0 ≤ 17 < 2 ^ 52)%Z as H1 by lia.
  assert (5 < 64) as H2 by lia.
  split; [exact H1|]. split; [exact H2|].
  exact (proj2 (prefetch_target_in_page 17 5 H1 H2)).
Defined.

(** A full line of 16 records with distinct keys, and a line of three. *)
Lemma wf_distinct_line : wf_line (apply_ops distinct_ops zero_line).
Proof. apply wf_apply_ops, wf_zero_line. Qed.

Lemma wf_short_line : wf_line (apply_ops (take 3 distinct_ops) zero_line).
Proof. apply wf_apply_ops, wf_zero_line. Qed.

Lemma inserted_record_is_found_witness :
  let l' := add_entry (apply_ops distinct_ops zero_line) (rec_of 17 17) in
  1 ≠ 0 ∧
  pref_bingo_find_event_to_fetch_addr 1 l' 17 = Some (usage_order l' !!! 0) ∧
  pref_bingo_find_event_to_fetch 1 l' 17 = Some (usage_order l' !!! 0).
Proof.
  intros l'. assert (1 ≠ 0) as H by lia. split; [exact H|].
  exact (proj2 (proj2
    (inserted_record_is_found _ (rec_of 17 17) 1 wf_distinct_line H))).
Defined.

Lemma insertion_keeps_other_lookups_witness :
  let l := apply_ops distinct_ops zero_line in
  pc_plus_address (rec_of 17 17) ≠ 5%Z ∧
  (current_size l = 16 →
   pc_plus_address (line l !!! (usage_order l !!! 15)) ≠ 5%Z) ∧
  pref_bingo_find_event_to_fetch_addr 1 (add_entry l (rec_of 17 17)) 5
  = pref_bingo_find_event_to_fetch_addr 1 l 5.
Proof.
  intros l.
  assert (pc_plus_address (rec_of 17 17) ≠ 5%Z) as H1 by (vm_compute; lia).
  assert (current_size l = 16 →
          pc_plus_address (line l !!! (usage_order l !!! 15)) ≠ 5%Z) as H2
    by (intros _; vm_compute; lia).
  split; [exact H1|]. split; [exact H2|].
  exact (insertion_keeps_other_lookups l (rec_of 17 17) 1 5
           wf_distinct_line H1 H2).
Defined.

Lemma promotion_moves_to_front_witness :
  let l := apply_ops (take 3 distinct_ops) zero_line in
  take 3 (usage_order l) = [2; 1; 0] ∧
  take 3 (usage_order (mark_used_by_address l 1)) = [0; 2; 1].
Proof.
  intros l. split; [reflexivity|].
  pose proof (proj2 (proj2 (promotion_moves_to_front l 1 wf_short_line)))
    as H.
  exact H.
Defined.

Lemma promotion_idempotent_witness :
  let l := apply_ops (take 3 distinct_ops) zero_line in
  mark_used_by_address (mark_used_by_address l 1) 1
  = mark_used_by_address l 1.
Proof. exact (promotion_idempotent _ 1 wf_short_line). Defined.

Lemma promoted_survives_insertion_witness :
  let l := apply_ops distinct_ops zero_line in
  let l' := add_entry (mark_used_by_address l 1) (rec_of 17 17) in
  1 ≠ 0 ∧
  for_first (λ i, (pc_plus_address (line l !!! i) =? 1)%Z)
            0 (current_size l) = Some 0 ∧
  usage_order l !!! 15 = 0 ∧
  line l' !!! 0 = line l !!! 0 ∧
  is_Some (pref_bingo_find_event_to_fetch_addr 1 l' 1).
Proof.
  intros l l'. assert (1 ≠ 0) as H1 by lia.
  assert (for_first (λ i, (pc_plus_address (line l !!! i) =? 1)%Z)
            0 (current_size l) = Some 0) as H2 by (vm_compute; reflexivity).
  split; [exact H1|]. split; [exact H2|]. split; [reflexivity|].
  exact (proj2 (promoted_survives_insertion l 1 (rec_of 17 17) 1 0
                  wf_distinct_line H1 H2)).
Defined.

Lemma insertions_fill_in_order_witness :
  length [rec_of 7 1; rec_of 8 1] ≤ 16 ∧
  apply_ops (Add <$> [rec_of 7 1; rec_of 8 1]) zero_line
  = mkLine ([rec_of 7 1; rec_of 8 1] ++ replicate 14 zero_hist)
           ([1; 0] ++ replicate 14 0) 2.
Proof.
  assert (length [rec_of 7 1; rec_of 8 1] ≤ 16) as H by (cbn; lia).
  split; [exact H|]. exact (insertions_fill_in_order _ H).
Defined.

Lemma insertions_form_ring_witness :
  let es := (λ k, rec_of (Z.of_nat k) 0) <$> seq 0 20 in
  let l := apply_ops (Add <$> es) zero_line in
  17 < length es ∧ length es ≤ 17 + 16 ∧
  line l !!! (17 mod 16) = es !!! 17.
Proof.
  intros es l.
  assert (17 < length es) as H1 by (vm_compute; lia).
  assert (length es ≤ 17 + 16) as H2 by (vm_compute; lia).
  split; [exact H1|]. split; [exact H2|].
  exact (proj2 (insertions_form_ring es) 17 H1 H2).
Defined.

Lemma live_record_trigger_witness :
  let evs := [Hit 0 4160 9 0; Hit 0 4096 7 0] in
  let e := default zero_aux (Aux_Storage (run0 evs) !! 1%Z) in
  Aux_Storage (run0 evs) !! 1%Z = Some e ∧
  trigger_addr e = 4160%Z ∧
  bingo_get_page_number (trigger_addr e) = 1%Z ∧
  flag (footprint e) (bingo_get_block_index (trigger_addr e)) = true.
Proof.
  intros evs e.
  assert (Aux_Storage (run0 evs) !! 1%Z = Some e) as H
    by (vm_compute; reflexivity).
  split; [exact H|]. split; [reflexivity|].
  exact (live_record_trigger 6 0 evs 1 e H).
Defined.

Lemma history_line_records_witness :
  let l := line_at (run0 mixed_trace) 5 in
  History_Table (run0 mixed_trace) !! 5%Z = Some l ∧
  1 ≤ current_size l ≤ 16.
Proof.
  intros l.
  assert (History_Table (run0 mixed_trace) !! 5%Z = Some l) as H
    by (vm_compute; reflexivity).
  split; [exact H|]. exact (proj1 (history_line_records 6 0 mixed_trace 5 l H)).
Defined.

Lemma history_line_always_selects_witness :
  let st := run0 mixed_trace in
  let l := line_at st 5 in
  History_Table st !! miss_signature 0 5 = Some l ∧
  ∃ s, select_entry (count (History_Table st)) l
         (miss_exact 0 5) (miss_signature 0 5) = Some s ∧
       s < current_size l ∧
       pc_plus_offset (line l !!! s) = miss_signature 0 5 ∧
       (miss0 st 0 0 5 0).2
         = pref_bingo_prefetch 6 0 (line l !!! s) 0 (bingo_get_page_number 0) ∧
       (miss0 st 0 0 5 0).2 ≠ [].
Proof.
  intros st l.
  assert (History_Table st !! miss_signature 0 5 = Some l) as H
    by (vm_compute; reflexivity).
  split; [exact H|].
  exact (history_line_always_selects 6 0 mixed_trace 0 0 5 0 l H).
Defined.

(** Instruction 3 misses on line 128: signature and exact key are 131;
    the line under 131 holds one record, committed by instruction 129 for
    line 128 (exact key 257). *)
Lemma fallback_selects_most_recent_witness :
  let evs := [Hit 0 128 129 0; Evict 0 128] in
  let st := run0 evs in
  let l := line_at st 131 in
  History_Table st !! miss_signature 128 3 = Some l ∧
  (∀ j, j < current_size l →
        pc_plus_address (line l !!! j) ≠ miss_exact 128 3) ∧
  select_entry (count (History_Table st)) l
    (miss_exact 128 3) (miss_signature 128 3) = Some (usage_order l !!! 0).
Proof.
  intros evs st l.
  assert (History_Table st !! miss_signature 128 3 = Some l) as H1
    by (vm_compute; reflexivity).
  assert (∀ j, j < current_size l →
               pc_plus_address (line l !!! j) ≠ miss_exact 128 3) as H2.
  { intros j Hj. assert (j = 0) as -> by (vm_compute in Hj; lia).
    vm_compute. lia. }
  split; [exact H1|]. split; [exact H2|].
  exact (fallback_selects_most_recent 6 0 evs 128 3 l H1 H2).
Defined.

(** Line 0 of page 0, touched by instruction 5 in blocks 0 and 1, is
    evicted; the same instruction then misses on line 0 again. *)
Lemma commit_then_predict_witness :
  let evs := [Hit 0 0 5 0; Hit 0 64 5 0] in
  let st := run0 evs in
  let e := default zero_aux (Aux_Storage st !! 0%Z) in
  let st1 := pref_bingo_ul1_cache_evict st 0 0 in
  Aux_Storage st !! bingo_get_page_number 0 = Some e ∧
  miss_signature 0 5 = addr_add (pc e) (Z.shiftr 0 6) ∧
  miss_exact 0 5 = addr_add (pc e) 0 ∧
  aux_set_bits e = [0; 1] ∧
  (miss0 st1 0 0 5 0).2 = [mkReq 0 0 0; mkReq 0 1 0].
Proof.
  intros evs st e st1.
  assert (Aux_Storage st !! bingo_get_page_number 0 = Some e) as H1
    by (vm_compute; reflexivity).
  assert (miss_signature 0 5 = addr_add (pc e) (Z.shiftr 0 6)) as H2
    by (vm_compute; reflexivity).
  assert (miss_exact 0 5 = addr_add (pc e) 0) as H3
    by (vm_compute; reflexivity).
  split; [exact H1|]. split; [exact H2|]. split; [exact H3|].
  split; [reflexivity|].
  exact (commit_then_predict 6 0 evs 0 0 0 0 5 0 e H1 H2 (or_introl H3)).
Defined.

Lemma history_lines_persist_witness :
  let st := run0 mixed_trace in
  let l := line_at st 5 in
  let evs := [Miss 0 0 5 0; Hit 0 0 5 0; Evict 0 0] in
  History_Table st !! 5%Z = Some l ∧
  ∃ l', History_Table (run 6 0 evs st) !! 5%Z = Some l' ∧
        current_size l ≤ current_size l'.
Proof.
  intros st l evs.
  assert (History_Table st !! 5%Z = Some l) as H
    by (vm_compute; reflexivity).
  split; [exact H|]. exact (history_lines_persist 6 0 evs st 5 l H).
Defined.

Lemma other_pages_leave_live_record_witness :
  let st := run0 [Hit 0 0 5 0] in
  let evs := [Hit 0 4096 7 0; Miss 0 8192 7 0; Evict 0 4096] in
  Forall (λ ev, event_page ev ≠ 0%Z) evs ∧
  Aux_Storage (run 6 0 evs st) !! 0%Z = Aux_Storage st !! 0%Z.
Proof.
  intros st evs.
  assert (Forall (λ ev, event_page ev ≠ 0%Z) evs) as H
    by (repeat constructor; vm_compute; lia).
  split; [exact H|]. exact (other_pages_leave_live_record 6 0 evs st 0 H).
Defined.

Lemma aligned_miss_keys_coincide_witness :
  (0 ≤ 4160 < 2 ^ 64)%Z ∧ (4160 mod 64 = 0)%Z ∧
  miss_signature 4160 9 = miss_exact 4160 9.
Proof.
  assert (0 ≤ 4160 < 2 ^ 64)%Z as H1 by lia.
  assert (4160 mod 64 = 0)%Z as H2 by reflexivity.
  split; [exact H1|]. split; [exact H2|].
  exact (proj2 (aligned_miss_keys_coincide 4160 9 H1) H2).
Defined.

(** Page 0 is tracked by instruction 5 (blocks 0 and 1); its line 0 is
    evicted, then lines 64 and 128 of the same page, with a hit and an
    eviction on page 1 in between. *)
Lemma single_commit_per_page_epoch_witness :
  let evs := [Hit 0 0 5 0; Hit 0 64 5 0] in
  let st := run0 evs in
  let e := default zero_aux (Aux_Storage st !! 0%Z) in
  let rest := [Evict 0 64; Hit 0 4096 7 0; Evict 0 128; Evict 0 4096] in
  let st1 := (step 6 0 st (Evict 0 0)).1 in
  let after := line_at st1 5 in
  Aux_Storage st !! bingo_get_page_number 0 = Some e ∧
  Forall (λ ev, accesses (bingo_get_page_number 0) ev = false) rest ∧
  History_Table st !! 5%Z = None ∧
  current_size after = 1 ∧
  line after !!! 0 = mkHist 5 5 e ∧
  aux_set_bits e = [0; 1] ∧
  (∃ after',
     History_Table st1 !! 5%Z = Some after' ∧
     line after' !!! 0 = mkHist 5 5 e ∧
     pref_bingo_find_event_to_fetch_addr (count (History_Table st1)) after' 5
     = Some 0) ∧
  run 6 0 rest st1 = run 6 0 [Hit 0 4096 7 0; Evict 0 4096] st1.
Proof.
  intros evs st e rest st1 after.
  assert (Aux_Storage st !! bingo_get_page_number 0 = Some e) as H1
    by (vm_compute; reflexivity).
  assert (Forall (λ ev, accesses (bingo_get_page_number 0) ev = false) rest)
    as H2 by (repeat constructor).
  destruct (single_commit_per_page_epoch 6 0 evs 0 0 e rest H1 H2)
    as ((after' & Hl & _ & _ & Hrec & _ & _ & _ & Hfind)
        & _ & _ & _ & _ & Hrun & _).
  split; [exact H1|]. split; [exact H2|].
  split; [vm_compute; reflexivity|]. split; [vm_compute; reflexivity|].
  split; [vm_compute; reflexivity|]. split; [vm_compute; reflexivity|].
  split; [|exact Hrun].
  exists after'. split; [exact Hl|]. split; [exact Hrec|exact Hfind].
Defined.

(** C8: the code at the failing inputs.  Instruction [0x400000] touches
    block 0 of the page at [2^44], the line is evicted, and the same
    instruction misses at [2^38], whose signature is the committed one.
    The selected footprint is {0}, the line address of block 0 of the
    current page is [2^38] and its line index [2^32]; the request carries
    line index 0, the [uns] cast having dropped bit 32.  Likewise a miss
    at [0x7ffff7dd1000] (after the commit of line [64 * 0x7ffff7dd1000])
    asks for line index [0xffdf7440], a line of page [0x3ff7dd1], instead
    of [0x1ffffdf7440]. *)
Theorem prefetch_line_index_truncated :
  let I := 4194304%Z in
  let request_of (X Y : Z) :=
    (miss0 (run0 [Hit 0 X I 0; Evict 0 X]) 0 Y I 0).2 in
  let selected (X Y : Z) :=
    let st := run0 [Hit 0 X I 0; Evict 0 X] in
    let l := line_at st (miss_signature Y I) in
    match select_entry (count (History_Table st)) l
            (miss_exact Y I) (miss_signature Y I) with
    | Some s => Some (s, set_bits (line l !!! s))
    | None => None
    end in
  let line_index_of_block_0 (Y : Z) :=
    Z.shiftr (bingo_get_page_base_from_number (bingo_get_page_number Y)
              + 64 * 0)%Z 6 in
  (selected (2 ^ 44)%Z (2 ^ 38)%Z = Some (0, [0]) ∧
   line_index_of_block_0 (2 ^ 38)%Z = (2 ^ 32)%Z ∧
   request_of (2 ^ 44)%Z (2 ^ 38)%Z = [mkReq 0 0 0]) ∧
  (selected (64 * 140737351847936)%Z 140737351847936%Z = Some (0, [0]) ∧
   line_index_of_block_0 140737351847936%Z = 2199021122624%Z ∧
   request_of (64 * 140737351847936)%Z 140737351847936%Z
   = [mkReq 0 4292834368 0] ∧
   bingo_get_page_number (Z.shiftl 4292834368 6) = 67075537%Z ∧
   bingo_get_page_number 140737351847936 = 34359705041%Z).
Proof. vm_compute. repeat split. Qed.
